(** * The blob batch runner (pkg/blob/runner.go)

    A shallow embedding of the four worker bodies of the batch runner, of the
    metric data it emits, of its constructor and of its [Run] method, together
    with the properties of the runner that its specification states.

    Go values are modelled as follows.
    - An [error] variable is an [option error]; [None] is Go's [nil].
    - A pointer to a string ([*string]) is an [option string].
    - An object travelling through a channel is a pointer; one iteration of a
      worker is the only writer of the object it received, so the iteration is
      modelled as a state transformer on that object.
    - Every effect of an iteration (the store call, the writes to the result
      fields, the metric, the release of the wait group) is also recorded in a
      trace, in program order. *)

From Stdlib Require Import ZArith QArith List Lia.
From stdpp Require Import base option list strings gmap.

Local Open Scope string_scope.
Local Open Scope list_scope.
Local Open Scope Z_scope.

(** ** Errors *)

(** The error values the runner can tell apart: a request failure of the AWS
    SDK ([awserr.RequestFailure], which carries an HTTP status code), any other
    error, an error wrapped by [fmt.Errorf] with [%w], and the aggregate of
    go-multierror ([*multierror.Error], a list of errors). *)
#[warnings="-register-all"]
Inductive error : Type :=
| RequestFailure (statusCode : Z) (message : string)
| ErrorString (message : string)
| Wrapped (message : string) (cause : error)
| MultiError (Errors : list error).

Module multierror.

(** What [Append] adds to the aggregate for one of its arguments: the
    components of an aggregate, the error itself otherwise, nothing for
    [nil]. *)
Definition flatten (e : option error) : list error :=
  match e with
  | Some (MultiError es) => es
  | Some e => [e]
  | None => []
  end.

(** The branch [case *Error] of [Append]: every argument is flattened onto
    the errors the aggregate already holds. *)
Definition AppendTo (es : list error) (errs : list (option error)) : error :=
  MultiError (es ++ concat (map flatten errs)).

(** [multierror.Append(err, errs...)]. When [err] is an aggregate the
    arguments are appended to it; otherwise a new aggregate is built from
    [err] (when it is not [nil]) followed by the arguments. *)
Definition Append (err : option error) (errs : list (option error)) : error :=
  match err with
  | Some (MultiError es) => AppendTo es errs
  | Some e => AppendTo [] (Some e :: errs)
  | None => AppendTo [] errs
  end.

End multierror.

(** ** Metric data *)

Definition metricName : string := "BlobBatchRunner".

Inductive Operation : Type :=
| operationRead
| operationWrite
| operationCopy
| operationDelete.

(** The string constant behind each operation kind. *)
Definition operation_string (op : Operation) : string :=
  match op with
  | operationRead => "Read"
  | operationWrite => "Write"
  | operationCopy => "Copy"
  | operationDelete => "Delete"
  end.

Module metric.

Inductive Priority : Type := PriorityLow | PriorityHigh.

Inductive StandardUnit : Type := UnitCount | UnitSeconds | UnitMilliseconds.

Record Datum : Type := {
  MetricName : string;
  Priority_ : Priority;
  Dimensions : gmap string string;
  Unit_ : StandardUnit;
  Value : Q
}.

(** Modelled from the spec: the metric writer of pkg/metric, which is not
    part of the sources at hand. The writer is pre-registered with the data
    handed to [NewWriter] and accepts one datum per [WriteOne]. *)
Record Writer : Type := {
  defaults : list Datum;
  written : list Datum
}.

Definition NewWriter (defaults : list Datum) : Writer :=
  {| defaults := defaults; written := [] |}.

Definition WriteOne (w : Writer) (d : Datum) : Writer :=
  {| defaults := defaults w; written := written w ++ [d] |}.

End metric.

(** The datum of kind [operation] with value [v]: the literal that
    [writeMetric] and [getDefaultRunnerMetrics] both build. *)
Definition datum (operation : string) (v : Q) : metric.Datum :=
  {| metric.MetricName := metricName;
     metric.Priority_ := metric.PriorityHigh;
     metric.Dimensions := {[ "Operation" := operation ]};
     metric.Unit_ := metric.UnitCount;
     metric.Value := v |}.

Definition getDefaultRunnerMetrics : list metric.Datum :=
  [ datum (operation_string operationRead) 0%Q;
    datum (operation_string operationWrite) 0%Q;
    datum (operation_string operationCopy) 0%Q;
    datum (operation_string operationDelete) 0%Q ].

(** ** Streams and bodies *)

(** An [io.ReadCloser]: the bytes it yields and what its [Close] returns. *)
Record ReadCloser : Type := {
  payload : string;
  closeError : option error
}.

(** Modelled from the spec: the [Stream] values of pkg/blob, which are not
    part of the sources at hand. [StreamReader] wraps a reader (possibly the
    [nil] reader) without reading it; [StreamBytes] holds bytes in memory. *)
Inductive Stream : Type :=
| StreamReader (reader : option ReadCloser)
| StreamBytes (data : string).

(** Modelled from the spec: [Body.AsReader()], the reader behind a stream. The
    reader over in-memory bytes closes without error; a job that carries no
    stream hands over the [nil] reader. *)
Definition AsReader (body : option Stream) : option ReadCloser :=
  match body with
  | Some (StreamReader reader) => reader
  | Some (StreamBytes data) => Some {| payload := data; closeError := None |}
  | None => None
  end.

(** Modelled from the spec: the adapter built by [CloseOnce], whose [Close]
    may be called more than once. Only the first call closes the reader
    underneath and reports its outcome; later calls report no error. *)
Record closeOnce : Type := {
  underlying : option ReadCloser;
  closed : bool
}.

Definition CloseOnce (reader : option ReadCloser) : closeOnce :=
  {| underlying := reader; closed := false |}.

Definition Close (body : closeOnce) : option error * closeOnce :=
  if closed body then (None, body)
  else (match underlying body with
        | Some reader => closeError reader
        | None => None
        end,
        {| underlying := underlying body; closed := true |}).

(** ** Jobs *)

(** Modelled from the spec: the job record of pkg/blob (the [Object] and
    [CopyObject] structs are not part of the sources at hand), with the
    fields the workers read and write. [wg] is the counter of the wait group
    the job points to. *)
Record Object : Type := {
  bucket : option string;
  prefix : string;
  Key : string;
  SourceBucket : string;
  SourceKey : string;
  ACL : string;
  ContentEncoding : option string;
  ContentType : option string;
  Body : option Stream;
  Exists : bool;
  Error : option error;
  wg : Z
}.

(** Modelled from the spec: the key parts joined into the full key. *)
Definition GetFullKey (o : Object) : string := prefix o +:+ Key o.

(** Modelled from the spec: source bucket and key combined into the one
    reference string the store client understands. *)
Definition getSource (o : Object) : string :=
  SourceBucket o +:+ "/" +:+ prefix o +:+ SourceKey o.

Definition set_Body (b : option Stream) (o : Object) : Object :=
  {| bucket := bucket o; prefix := prefix o; Key := Key o;
     SourceBucket := SourceBucket o; SourceKey := SourceKey o; ACL := ACL o;
     ContentEncoding := ContentEncoding o; ContentType := ContentType o;
     Body := b; Exists := Exists o; Error := Error o; wg := wg o |}.

Definition set_Exists (e : bool) (o : Object) : Object :=
  {| bucket := bucket o; prefix := prefix o; Key := Key o;
     SourceBucket := SourceBucket o; SourceKey := SourceKey o; ACL := ACL o;
     ContentEncoding := ContentEncoding o; ContentType := ContentType o;
     Body := Body o; Exists := e; Error := Error o; wg := wg o |}.

Definition set_Error (e : option error) (o : Object) : Object :=
  {| bucket := bucket o; prefix := prefix o; Key := Key o;
     SourceBucket := SourceBucket o; SourceKey := SourceKey o; ACL := ACL o;
     ContentEncoding := ContentEncoding o; ContentType := ContentType o;
     Body := Body o; Exists := Exists o; Error := e; wg := wg o |}.

(** [sync.WaitGroup.Done]: the counter goes down by one. *)
Definition set_wg_Done (o : Object) : Object :=
  {| bucket := bucket o; prefix := prefix o; Key := Key o;
     SourceBucket := SourceBucket o; SourceKey := SourceKey o; ACL := ACL o;
     ContentEncoding := ContentEncoding o; ContentType := ContentType o;
     Body := Body o; Exists := Exists o; Error := Error o; wg := wg o - 1 |}.

(** ** The store client *)

Module s3.

Record GetObjectInput : Type := {
  get_Bucket : option string;
  get_Key : option string
}.

Record GetObjectOutput : Type := {
  out_Body : option ReadCloser
}.

Record PutObjectInput : Type := {
  put_ACL : string;
  put_Body : closeOnce;
  put_Bucket : option string;
  put_Key : option string;
  put_ContentEncoding : option string;
  put_ContentType : option string
}.

Record CopyObjectInput : Type := {
  copy_ACL : string;
  copy_Bucket : option string;
  copy_Key : option string;
  copy_CopySource : option string;
  copy_ContentEncoding : option string;
  copy_ContentType : option string
}.

Record DeleteObjectInput : Type := {
  delete_Bucket : option string;
  delete_Key : option string
}.

(** The four calls of the client the runner uses. A call returns its
    output or, when its [err] is not [nil], the error. The put reads the
    body it is given and leaves closing it to the worker. *)
Record Client : Type := {
  GetObject : GetObjectInput -> GetObjectOutput + error;
  PutObject : PutObjectInput -> option error;
  CopyObject : CopyObjectInput -> option error;
  DeleteObject : DeleteObjectInput -> option error
}.

End s3.

(** [aws.String]: a pointer to the string. *)
Definition aws_String (s : string) : option string := Some s.

(** The test of [executeRead] for an absent object:
    [awsErr, ok := err.(awserr.RequestFailure); ok && awsErr.StatusCode() == 404]. *)
Definition isNotFound (err : error) : bool :=
  match err with
  | RequestFailure statusCode _ => statusCode =? 404
  | _ => false
  end.

(** ** One iteration of a worker, as a state transformer *)

Inductive Field : Type := FieldBody | FieldExists | FieldError.

(** What an iteration does, in program order. *)
Inductive Event : Type :=
| EvReceive (op : Operation)      (* object := <-r.channels.<op> *)
| EvCall (op : Operation)         (* the call of the store client *)
| EvClose                         (* body.Close() *)
| EvSet (field : Field)           (* a write to a result field of the job *)
| EvMetric (op : Operation)       (* r.writeMetric(op) *)
| EvDone.                         (* object.wg.Done() *)

(** The state an iteration works on: the job it received, the metric writer
    of the runner and the trace so far. *)
Record State : Type := {
  object : Object;
  writer : metric.Writer;
  trace : list Event
}.

Definition M (A : Type) : Type := State -> A * State.

Definition ret {A} (a : A) : M A := fun st => (a, st).

Definition bind {A B} (m : M A) (k : A -> M B) : M B :=
  fun st => let (a, st') := m st in k a st'.

Declare Scope go_scope.
Delimit Scope go_scope with go.
Notation "x <-- m ;; k" := (bind m (fun x => k))
  (at level 100, m at next level, right associativity) : go_scope.
Notation "m ;;; k" := (bind m (fun _ => k))
  (at level 100, right associativity) : go_scope.

(** An effect on the job, recorded in the trace as [ev]. *)
Definition effect (ev : Event) (f : Object -> Object) : M unit :=
  fun st => (tt, {| object := f (object st);
                    writer := writer st;
                    trace := trace st ++ [ev] |}).

(** The job of the current iteration. *)
Definition current : M Object := fun st => (object st, st).

(** A call of the store client: recorded, and its result handed back. *)
Definition call {A} (op : Operation) (result : A) : M A :=
  fun st => (result, {| object := object st;
                        writer := writer st;
                        trace := trace st ++ [EvCall op] |}).

(** [body.Close()] on the adapter around the body of a write job. *)
Definition closeBody (body : closeOnce) : M (option error) :=
  fun st => (fst (Close body), {| object := object st;
                                  writer := writer st;
                                  trace := trace st ++ [EvClose] |}).

(** [r.writeMetric(operation)]: one datum of value 1 for the kind. *)
Definition writeMetric (operation : Operation) : M unit :=
  fun st => (tt, {| object := object st;
                    writer := metric.WriteOne (writer st)
                                (datum (operation_string operation) 1%Q);
                    trace := trace st ++ [EvMetric operation] |}).

Definition assign_Body (b : option Stream) : M unit :=
  effect (EvSet FieldBody) (set_Body b).

Definition assign_Exists (e : bool) : M unit :=
  effect (EvSet FieldExists) (set_Exists e).

Definition assign_Error (e : option error) : M unit :=
  effect (EvSet FieldError) (set_Error e).

Definition wg_Done : M unit := effect EvDone set_wg_Done.

(** The inputs the workers build for the calls of the client. *)

Definition getObjectInput (object : Object) : s3.GetObjectInput :=
  let key := GetFullKey object in
  {| s3.get_Bucket := bucket object;
     s3.get_Key := aws_String key |}.

Definition putObjectInput (object : Object) (body : closeOnce)
  : s3.PutObjectInput :=
  let key := GetFullKey object in
  {| s3.put_ACL := ACL object;
     s3.put_Body := body;
     s3.put_Bucket := bucket object;
     s3.put_Key := aws_String key;
     s3.put_ContentEncoding := ContentEncoding object;
     s3.put_ContentType := ContentType object |}.

Definition copyObjectInput (object : Object) : s3.CopyObjectInput :=
  let key := GetFullKey object in
  let source := getSource object in
  {| s3.copy_ACL := ACL object;
     s3.copy_Bucket := bucket object;
     s3.copy_Key := aws_String key;
     s3.copy_CopySource := aws_String source;
     s3.copy_ContentEncoding := ContentEncoding object;
     s3.copy_ContentType := ContentType object |}.

Definition deleteObjectInput (object : Object) : s3.DeleteObjectInput :=
  let key := GetFullKey object in
  {| s3.delete_Bucket := bucket object;
     s3.delete_Key := aws_String key |}.

(** The wrapped body of a write job: [CloseOnce(object.Body.AsReader())]. *)
Definition wrappedBody (object : Object) : closeOnce :=
  CloseOnce (AsReader (Body object)).

Section Workers.

Variable client : s3.Client.

Local Open Scope go_scope.

(** The case [object := <-r.channels.read] of [executeRead]. *)
Definition executeRead_case : M unit :=
  object <-- current ;;
  let exists_ := true in
  let input := getObjectInput object in
  result <-- call operationRead (s3.GetObject client input) ;;
  let '(body, exists_, err) :=
    match result with
    | inr err =>
        if isNotFound err then (None, false, None)
        else (None, exists_, Some err)
    | inl out => (s3.out_Body out, exists_, None)
    end in
  writeMetric operationRead ;;;
  assign_Body (Some (StreamReader body)) ;;;
  assign_Exists exists_ ;;;
  assign_Error err ;;;
  wg_Done.

(** [executeWrite], from the receive up to the outcome of the put: the
    body is wrapped, the put is issued and its outcome is written to the
    job. The wrapped body is handed to the rest of the iteration. *)
Definition executeWrite_put : M closeOnce :=
  object <-- current ;;
  let body := wrappedBody object in
  let input := putObjectInput object body in
  err <-- call operationWrite (s3.PutObject client input) ;;
  match err with
  | Some _ => assign_Exists false ;;; assign_Error err
  | None => assign_Exists true
  end ;;;
  ret body.

(** [executeWrite], the close of the wrapped body:
    [if err := body.Close(); err != nil { object.Error = multierror.Append(object.Error, err) }]. *)
Definition executeWrite_close (body : closeOnce) : M unit :=
  err <-- closeBody body ;;
  match err with
  | Some _ =>
      object <-- current ;;
      assign_Error (Some (multierror.Append (Error object) [err]))
  | None => ret tt
  end.

(** The case [object := <-r.channels.write] of [executeWrite]. *)
Definition executeWrite_case : M unit :=
  body <-- executeWrite_put ;;
  executeWrite_close body ;;;
  writeMetric operationWrite ;;;
  wg_Done.

(** The case [object := <-r.channels.copy] of [executeCopy]. *)
Definition executeCopy_case : M unit :=
  object <-- current ;;
  let input := copyObjectInput object in
  err <-- call operationCopy (s3.CopyObject client input) ;;
  match err with
  | Some _ => assign_Error err
  | None => ret tt
  end ;;;
  writeMetric operationCopy ;;;
  wg_Done.

(** The case [object := <-r.channels.delete] of [executeDelete]. *)
Definition executeDelete_case : M unit :=
  object <-- current ;;
  let input := deleteObjectInput object in
  err <-- call operationDelete (s3.DeleteObject client input) ;;
  match err with
  | Some _ => assign_Error err
  | None => ret tt
  end ;;;
  writeMetric operationDelete ;;;
  wg_Done.

(** The body of the worker of kind [op]. *)
Definition case_of (op : Operation) : M unit :=
  match op with
  | operationRead => executeRead_case
  | operationWrite => executeWrite_case
  | operationCopy => executeCopy_case
  | operationDelete => executeDelete_case
  end.

(** The state in which the worker of kind [op] starts on the job [o] it has
    just received, the metric writer being [w]. *)
Definition received (op : Operation) (o : Object) (w : metric.Writer) : State :=
  {| object := o; writer := w; trace := [EvReceive op] |}.

(** One job from receive to release: the state after the worker of kind
    [op] has received [o] and run its case on it. *)
Definition process (op : Operation) (o : Object) (w : metric.Writer) : State :=
  snd (case_of op (received op o w)).

(** ** The worker loops *)

(** What one [select] of a worker picks: the shutdown of the context or a
    job from the channel of its kind. *)
Inductive Selected : Type :=
| SelectDone
| SelectReceive (object : Object).

(** What the workers of one kind leave behind: the metric writer, the
    trace, and the jobs they have handed back. *)
Record World : Type := {
  metricWriter : metric.Writer;
  events : list Event;
  finished : list Object
}.

Definition iteration (op : Operation) (o : Object) (w : World) : World :=
  let st := process op o (metricWriter w) in
  {| metricWriter := writer st;
     events := events w ++ trace st;
     finished := finished w ++ [object st] |}.

(** [for { select { case <-ctx.Done(): return; case object := <-ch: ... } }]
    along the choices [sels] of the successive selects. When the choices
    are used up the worker waits in its select. *)
Fixpoint worker (op : Operation) (sels : list Selected) (w : World) : World :=
  match sels with
  | [] => w
  | SelectDone :: _ => w
  | SelectReceive o :: sels' => worker op sels' (iteration op o w)
  end.

Definition executeRead := worker operationRead.
Definition executeWrite := worker operationWrite.
Definition executeCopy := worker operationCopy.
Definition executeDelete := worker operationDelete.

End Workers.

(** ** Settings and construction *)

(** The worker counts, Go [int]s. *)
Record BatchRunnerSettings : Type := {
  ReaderRunnerCount : Z;
  WriterRunnerCount : Z;
  CopyRunnerCount : Z;
  DeleteRunnerCount : Z
}.

(** Modelled from the spec: the configuration, which is not part of the
    sources at hand. It may hold a value for each of the four keys under
    [blob], and it decides whether the store client can be provided. *)
Record Config : Type := {
  reader_runner_count : option Z;
  writer_runner_count : option Z;
  copy_runner_count : option Z;
  delete_runner_count : option Z;
  provideClient : s3.Client + error
}.

(** Modelled from the spec: [config.UnmarshalKey("blob", settings)] fills in
    each count from the configuration and falls back to the value of the
    [default] tag of the field, which is 10 for all four. *)
Definition UnmarshalKey_blob (config : Config) : BatchRunnerSettings :=
  {| ReaderRunnerCount := default 10 (reader_runner_count config);
     WriterRunnerCount := default 10 (writer_runner_count config);
     CopyRunnerCount := default 10 (copy_runner_count config);
     DeleteRunnerCount := default 10 (delete_runner_count config) |}.

Record batchRunner : Type := {
  metric_ : metric.Writer;
  client_ : s3.Client;
  settings : BatchRunnerSettings
}.

Definition NewBatchRunner (config : Config) : batchRunner + error :=
  let settings := UnmarshalKey_blob config in
  let defaultMetrics := getDefaultRunnerMetrics in
  let metricWriter := metric.NewWriter defaultMetrics in
  match provideClient config with
  | inr err => inr (Wrapped "can not create s3 client default: " err)
  | inl s3Client =>
      inl {| metric_ := metricWriter;
             client_ := s3Client;
             settings := settings |}
  end.

(** ** Run *)

(** What [Run] itself does: it starts a goroutine for a worker of some kind,
    or it returns. *)
Inductive RunEvent : Type :=
| EvGo (op : Operation)
| EvReturn (err : option error).

(** Where [Run] stands: at the test [i < count] of the loop that starts the
    workers of kind [op], at the receive [<-ctx.Done()], or past its
    [return]. *)
Inductive RunPc : Type :=
| PcFor (op : Operation) (i : Z)
| PcWaitDone
| PcReturned.

Definition runnerCount (s : BatchRunnerSettings) (op : Operation) : Z :=
  match op with
  | operationRead => ReaderRunnerCount s
  | operationWrite => WriterRunnerCount s
  | operationCopy => CopyRunnerCount s
  | operationDelete => DeleteRunnerCount s
  end.

(** What follows the loop for [op] in the text of [Run]. *)
Definition afterFor (op : Operation) : RunPc :=
  match op with
  | operationRead => PcFor operationWrite 0
  | operationWrite => PcFor operationCopy 0
  | operationCopy => PcFor operationDelete 0
  | operationDelete => PcWaitDone
  end.

(** One step of [Run], [ctxDone] telling whether the context is done at that
    moment. [None]: no step is possible; at [PcWaitDone] the method is
    blocked in the receive. *)
Definition Run_step (s : BatchRunnerSettings) (ctxDone : bool) (pc : RunPc)
  : option (RunPc * list RunEvent) :=
  match pc with
  | PcFor op i =>
      if i <? runnerCount s op then Some (PcFor op (i + 1), [EvGo op])
      else Some (afterFor op, [])
  | PcWaitDone =>
      if ctxDone then Some (PcReturned, [EvReturn None]) else None
  | PcReturned => None
  end.

(** [fuel] moments of [Run] from [pc], starting at moment [t]; [ctxDone t]
    tells whether the context is done at moment [t]. A moment at which no
    step is possible passes without effect. *)
Fixpoint Run_from (s : BatchRunnerSettings) (ctxDone : nat -> bool)
  (fuel t : nat) (pc : RunPc) (tr : list RunEvent) : RunPc * list RunEvent :=
  match fuel with
  | O => (pc, tr)
  | S fuel' =>
      match Run_step s (ctxDone t) pc with
      | Some (pc', evs) => Run_from s ctxDone fuel' (S t) pc' (tr ++ evs)
      | None => Run_from s ctxDone fuel' (S t) pc tr
      end
  end.

Definition Run (s : BatchRunnerSettings) (ctxDone : nat -> bool) (fuel : nat)
  : RunPc * list RunEvent :=
  Run_from s ctxDone fuel 0%nat (PcFor operationRead 0) [].

(** The goroutines [Run] starts when the counts are [s], in the order in
    which it starts them. *)
Definition started (s : BatchRunnerSettings) : list RunEvent :=
  replicate (Z.to_nat (ReaderRunnerCount s)) (EvGo operationRead)
  ++ replicate (Z.to_nat (WriterRunnerCount s)) (EvGo operationWrite)
  ++ replicate (Z.to_nat (CopyRunnerCount s)) (EvGo operationCopy)
  ++ replicate (Z.to_nat (DeleteRunnerCount s)) (EvGo operationDelete).

(** The number of moments [Run] needs to reach its receive: one per worker
    started and one per loop for the test that ends it. *)
Definition startMoments (s : BatchRunnerSettings) : nat :=
  (Z.to_nat (ReaderRunnerCount s) + Z.to_nat (WriterRunnerCount s)
   + Z.to_nat (CopyRunnerCount s) + Z.to_nat (DeleteRunnerCount s) + 4)%nat.

(** ** Reading traces *)

Definition Operation_eqb (a b : Operation) : bool :=
  match a, b with
  | operationRead, operationRead
  | operationWrite, operationWrite
  | operationCopy, operationCopy
  | operationDelete, operationDelete => true
  | _, _ => false
  end.

Definition isMetric (op : Operation) (ev : Event) : bool :=
  match ev with EvMetric op' => Operation_eqb op op' | _ => false end.

Definition isAnyMetric (ev : Event) : bool :=
  match ev with EvMetric _ => true | _ => false end.

Definition isDone (ev : Event) : bool :=
  match ev with EvDone => true | _ => false end.

Definition isSet (ev : Event) : bool :=
  match ev with EvSet _ => true | _ => false end.

Definition isClose (ev : Event) : bool :=
  match ev with EvClose => true | _ => false end.

Definition isGo (op : Operation) (ev : RunEvent) : bool :=
  match ev with EvGo op' => Operation_eqb op op' | _ => false end.

Definition count {A} (p : A -> bool) (l : list A) : nat :=
  length (List.filter p l).

(** Whether a datum is tagged with the kind [op]. *)
Definition hasOperation (op : Operation) (d : metric.Datum) : bool :=
  bool_decide (metric.Dimensions d !! "Operation" = Some (operation_string op)).

(** A zero-valued counter of the runner. *)
Definition isZeroCounter (d : metric.Datum) : Prop :=
  metric.MetricName d = metricName
  /\ metric.Unit_ d = metric.UnitCount
  /\ metric.Value d = 0%Q.

(** The part of a trace that follows its first metric. *)
Fixpoint afterMetric (tr : list Event) : list Event :=
  match tr with
  | [] => []
  | EvMetric _ :: tr' => tr'
  | _ :: tr' => afterMetric tr'
  end.

(** The writes to the result fields that follow a put, by its outcome. *)
Definition putSets (err : option error) : list Event :=
  match err with
  | Some _ => [EvSet FieldExists; EvSet FieldError]
  | None => [EvSet FieldExists]
  end.

(** The order the specification gives, as a test on the trace of one job of
    kind [op]: the receive comes first, no result field is written once the
    metric has been emitted, and the release comes last. *)
Definition receive_set_metric_done (op : Operation) (tr : list Event) : bool :=
  match tr with
  | EvReceive op' :: _ => Operation_eqb op op'
  | _ => false
  end
  && forallb (fun ev => negb (isSet ev)) (afterMetric tr)
  && match List.last tr (EvReceive op) with EvDone => true | _ => false end.

(** An error is visible in the error field [r] of a job when it is the
    field's value or when all its components are among those of the
    aggregate the field holds. *)
Definition visible (e : error) (r : option error) : Prop :=
  r = Some e \/
  exists es, r = Some (MultiError es) /\
             forall c, In c (multierror.flatten (Some e)) -> In c es.

(** ** Sample clients and jobs *)

(** A store in which no object is found and every other call succeeds. *)
Definition emptyStore : s3.Client :=
  {| s3.GetObject := fun _ => inr (RequestFailure 404 "NoSuchKey");
     s3.PutObject := fun _ => None;
     s3.CopyObject := fun _ => None;
     s3.DeleteObject := fun _ => None |}.

(** A store every call of which fails, the get with a status other than 404. *)
Definition brokenStore : s3.Client :=
  {| s3.GetObject := fun _ => inr (RequestFailure 500 "InternalError");
     s3.PutObject := fun _ => Some (ErrorString "put failed");
     s3.CopyObject := fun _ => Some (ErrorString "copy failed");
     s3.DeleteObject := fun _ => Some (ErrorString "delete failed") |}.

(** A store that holds the object asked for. *)
Definition fullStore : s3.Client :=
  {| s3.GetObject := fun _ =>
       inl {| s3.out_Body := Some {| payload := "hello"; closeError := None |} |};
     s3.PutObject := fun _ => None;
     s3.CopyObject := fun _ => None;
     s3.DeleteObject := fun _ => None |}.

(** A job as a producer enqueues it: no result yet, one release awaited. *)
Definition sampleJob : Object :=
  {| bucket := Some "bucket"; prefix := "blobs/"; Key := "a.txt";
     SourceBucket := "other"; SourceKey := "b.txt"; ACL := "private";
     ContentEncoding := None; ContentType := Some "text/plain";
     Body := None; Exists := false; Error := None; wg := 1 |}.

(** A write job whose body fails to close. *)
Definition leakyJob : Object :=
  set_Body
    (Some (StreamReader
       (Some {| payload := "data";
                closeError := Some (ErrorString "close failed") |})))
    sampleJob.

Definition emptyWriter : metric.Writer :=
  metric.NewWriter getDefaultRunnerMetrics.

Definition sampleConfig : Config :=
  {| reader_runner_count := None;
     writer_runner_count := Some 2;
     copy_runner_count := None;
     delete_runner_count := Some 0;
     provideClient := inl emptyStore |}.

Definition defaultSettings : BatchRunnerSettings :=
  {| ReaderRunnerCount := 10; WriterRunnerCount := 10;
     CopyRunnerCount := 10; DeleteRunnerCount := 10 |}.

(** ** The shared runner *)

(** The module factory that [ProvideBatchRunner] returns, applied to a
    configuration. [instance] is the package variable [br.instance] before
    the call; the result is what the factory returns (the module and the
    error) and the variable afterwards. *)
Definition ProvideBatchRunner (config : Config)
  (instance : option batchRunner)
  : (option batchRunner * option error) * option batchRunner :=
  match instance with
  | Some r => ((Some r, None), instance)
  | None =>
      match NewBatchRunner config with
      | inl r => ((Some r, None), Some r)
      | inr err => ((None, Some err), None)
      end
  end.

(** The factory applied once per configuration of [configs], in order. *)
Fixpoint provideEach (configs : list Config) (instance : option batchRunner)
  : list (option batchRunner * option error) * option batchRunner :=
  match configs with
  | [] => ([], instance)
  | config :: configs' =>
      let (result, instance') := ProvideBatchRunner config instance in
      let (results, instance'') := provideEach configs' instance' in
      (result :: results, instance'')
  end.

(** The runner a configuration yields, if it yields one. *)
Definition constructed (config : Config) : option batchRunner :=
  match NewBatchRunner config with
  | inl r => Some r
  | inr _ => None
  end.

(** ** More ways to read traces and jobs *)

Definition isCall (op : Operation) (ev : Event) : bool :=
  match ev with EvCall op' => Operation_eqb op op' | _ => false end.

Definition isAnyCall (ev : Event) : bool :=
  match ev with EvCall _ => true | _ => false end.

(** The parts of a trace before and after its first close. *)
Fixpoint beforeClose (tr : list Event) : list Event :=
  match tr with
  | [] => []
  | EvClose :: _ => []
  | ev :: tr' => ev :: beforeClose tr'
  end.

Fixpoint afterClose (tr : list Event) : list Event :=
  match tr with
  | [] => []
  | EvClose :: tr' => tr'
  | _ :: tr' => afterClose tr'
  end.

(** Two jobs agree on everything a producer puts in to describe the
    operation. *)
Definition sameRequest (o o' : Object) : Prop :=
  bucket o' = bucket o
  /\ prefix o' = prefix o
  /\ Key o' = Key o
  /\ SourceBucket o' = SourceBucket o
  /\ SourceKey o' = SourceKey o
  /\ ACL o' = ACL o
  /\ ContentEncoding o' = ContentEncoding o
  /\ ContentType o' = ContentType o.

(** The jobs a list of selects receives before the shutdown is selected. *)
Fixpoint receivedBeforeDone (sels : list Selected) : list Object :=
  match sels with
  | [] => []
  | SelectDone :: _ => []
  | SelectReceive o :: sels' => o :: receivedBeforeDone sels'
  end.

(** A world in which nothing has happened yet. *)
Definition freshWorld (w : metric.Writer) : World :=
  {| metricWriter := w; events := []; finished := [] |}.

(** * Configurable stream inputs (pkg/stream/input_configurable.go) *)

Module stream.

Definition InputTypeFile : string := "file".
Definition InputTypeInMemory : string := "inMemory".
Definition InputTypeKinesis : string := "kinesis".
Definition InputTypeRedis : string := "redis".
Definition InputTypeSns : string := "sns".
Definition InputTypeSqs : string := "sqs".

(** The types of the package and of its neighbours that are declared in
    files not at hand, each with the zero value Go gives it: the inputs
    themselves, the values of type [interface{}], the settings of the file,
    in-memory and kinesis inputs, and the redrive and fifo settings of sqs.
    [kinesis_setName] is the assignment [settings.Name = name]. *)
Class Types : Type := {
  Input : Type;
  any : Type;
  FileSettings : Type;
  FileSettings_zero : FileSettings;
  InMemorySettings : Type;
  InMemorySettings_zero : InMemorySettings;
  KinesisSettings : Type;
  KinesisSettings_zero : KinesisSettings;
  kinesis_setName : string -> KinesisSettings -> KinesisSettings;
  RedrivePolicy : Type;
  RedrivePolicy_zero : RedrivePolicy;
  FifoSettings : Type;
  FifoSettings_zero : FifoSettings
}.

(** [cfg.AppId], with the fields the source sets. *)
Record AppId : Type := {
  Project : string;
  Family : string;
  Application : string
}.

Section WithTypes.

Context `{Types}.

Record KinesisInputConfiguration : Type := {
  kinesis_Settings : KinesisSettings;
  kinesis_Type : string
}.

(** [time.Duration] is a number of nanoseconds. *)
Record redisInputConfiguration : Type := {
  redis_Project : string;
  redis_Family : string;
  redis_Application : string;
  redis_ServerName : string;
  redis_Key : string;
  redis_WaitTime : Z
}.

Record SnsInputTargetConfiguration : Type := {
  target_Family : string;
  target_Application : string;
  target_TopicId : string;
  target_Attributes : gmap string any
}.

Record SnsInputConfiguration : Type := {
  sns_Type : string;
  sns_ConsumerId : string;
  sns_Family : string;
  sns_Application : string;
  sns_Targets : list SnsInputTargetConfiguration;
  sns_MaxNumberOfMessages : Z;
  sns_WaitTime : Z;
  sns_VisibilityTimeout : Z;
  sns_RunnerCount : Z;
  sns_RedrivePolicy : RedrivePolicy;
  sns_ClientName : string
}.

Record sqsInputConfiguration : Type := {
  sqs_Family : string;
  sqs_Application : string;
  sqs_QueueId : string;
  sqs_MaxNumberOfMessages : Z;
  sqs_WaitTime : Z;
  sqs_VisibilityTimeout : Z;
  sqs_RunnerCount : Z;
  sqs_Fifo : FifoSettings;
  sqs_RedrivePolicy : RedrivePolicy;
  sqs_ClientName : string;
  sqs_Unmarshaller : string
}.

(** The settings the inputs are constructed from, with the fields the
    source sets. *)
Record RedisListInputSettings : Type := {
  rs_AppId : AppId;
  rs_ServerName : string;
  rs_Key : string;
  rs_WaitTime : Z
}.

Record SnsInputSettings : Type := {
  ss_AppId : AppId;
  ss_QueueId : string;
  ss_MaxNumberOfMessages : Z;
  ss_WaitTime : Z;
  ss_VisibilityTimeout : Z;
  ss_RunnerCount : Z;
  ss_RedrivePolicy : RedrivePolicy;
  ss_ClientName : string
}.

Record SnsInputTarget : Type := {
  st_AppId : AppId;
  st_TopicId : string;
  st_Attributes : gmap string any
}.

Record SqsInputSettings : Type := {
  qs_AppId : AppId;
  qs_QueueId : string;
  qs_MaxNumberOfMessages : Z;
  qs_WaitTime : Z;
  qs_VisibilityTimeout : Z;
  qs_RunnerCount : Z;
  qs_Fifo : FifoSettings;
  qs_RedrivePolicy : RedrivePolicy;
  qs_ClientName : string;
  qs_Unmarshaller : string
}.

(** The zero values of the configuration structs. *)
Definition KinesisInputConfiguration_zero : KinesisInputConfiguration :=
  {| kinesis_Settings := KinesisSettings_zero; kinesis_Type := "" |}.

Definition redisInputConfiguration_zero : redisInputConfiguration :=
  {| redis_Project := ""; redis_Family := ""; redis_Application := "";
     redis_ServerName := ""; redis_Key := ""; redis_WaitTime := 0 |}.

Definition SnsInputConfiguration_zero : SnsInputConfiguration :=
  {| sns_Type := ""; sns_ConsumerId := ""; sns_Family := "";
     sns_Application := ""; sns_Targets := []; sns_MaxNumberOfMessages := 0;
     sns_WaitTime := 0; sns_VisibilityTimeout := 0; sns_RunnerCount := 0;
     sns_RedrivePolicy := RedrivePolicy_zero; sns_ClientName := "" |}.

Definition sqsInputConfiguration_zero : sqsInputConfiguration :=
  {| sqs_Family := ""; sqs_Application := ""; sqs_QueueId := "";
     sqs_MaxNumberOfMessages := 0; sqs_WaitTime := 0;
     sqs_VisibilityTimeout := 0; sqs_RunnerCount := 0;
     sqs_Fifo := FifoSettings_zero; sqs_RedrivePolicy := RedrivePolicy_zero;
     sqs_ClientName := ""; sqs_Unmarshaller := "" |}.

(** The methods of [cfg.Config] the file calls. [UnmarshalKey] is given once
    per type of struct it fills: it takes the key and the struct as passed
    in and yields the struct as filled. [PadFromConfig] is the method of
    [cfg.AppId] that takes the configuration. *)
Record Config : Type := {
  GetString : string -> string;
  GetStringMap : string -> gmap string any -> gmap string any;
  UnmarshalKey_file : string -> FileSettings -> FileSettings;
  UnmarshalKey_inMemory : string -> InMemorySettings -> InMemorySettings;
  UnmarshalKey_kinesis :
    string -> KinesisInputConfiguration -> KinesisInputConfiguration;
  UnmarshalKey_redis :
    string -> redisInputConfiguration -> redisInputConfiguration;
  UnmarshalKey_sns : string -> SnsInputConfiguration -> SnsInputConfiguration;
  UnmarshalKey_sqs : string -> sqsInputConfiguration -> sqsInputConfiguration;
  PadFromConfig : AppId -> AppId
}.

(** A Go result [(Input, error)]. *)
Definition Result : Type := option Input * option error.

(** The constructors of the inputs, which are declared in files not at
    hand. *)
Class Constructors : Type := {
  NewFileInput : Config -> FileSettings -> Input;
  ProvideInMemoryInput : string -> InMemorySettings -> Input;
  NewKinesisInput : Config -> KinesisSettings -> Result;
  NewRedisListInput : Config -> RedisListInputSettings -> Result;
  NewSnsInput : Config -> SnsInputSettings -> list SnsInputTarget -> Result;
  NewSqsInput : Config -> SqsInputSettings -> Result
}.

Definition InputFactory : Type := Config -> string -> Result.

Definition ConfigurableInputKey (name : string) : string :=
  "stream.input." +:+ name.

Definition readInputType (config : Config) (name : string) : string :=
  let key := ConfigurableInputKey name +:+ ".type" in
  let t := GetString config key in
  t.

(** The map of [readAllInputTypes] is built by one assignment per name of
    the map under [stream.input]. *)
Definition readAllInputTypes (config : Config) : gmap string string :=
  let inputMap := GetStringMap config "stream.input" ∅ in
  let inputsTypes : gmap string string := ∅ in
  foldr (fun name inputsTypes => <[name := readInputType config name]> inputsTypes)
    inputsTypes (map fst (map_to_list inputMap)).

Definition readSnsInputSettings (config : Config) (name : string)
  : SnsInputSettings * list SnsInputTarget :=
  let key := ConfigurableInputKey name in
  let configuration := UnmarshalKey_sns config key SnsInputConfiguration_zero in
  let clientName := sns_ClientName configuration in
  let clientName :=
    if String.eqb clientName "" then "stream-input-" +:+ name
    else clientName in
  let settings :=
    {| ss_AppId := {| Project := "";
                      Family := sns_Family configuration;
                      Application := sns_Application configuration |};
       ss_QueueId := sns_ConsumerId configuration;
       ss_MaxNumberOfMessages := sns_MaxNumberOfMessages configuration;
       ss_WaitTime := sns_WaitTime configuration;
       ss_VisibilityTimeout := sns_VisibilityTimeout configuration;
       ss_RunnerCount := sns_RunnerCount configuration;
       ss_RedrivePolicy := sns_RedrivePolicy configuration;
       ss_ClientName := clientName |} in
  let settings :=
    {| ss_AppId := PadFromConfig config (ss_AppId settings);
       ss_QueueId := ss_QueueId settings;
       ss_MaxNumberOfMessages := ss_MaxNumberOfMessages settings;
       ss_WaitTime := ss_WaitTime settings;
       ss_VisibilityTimeout := ss_VisibilityTimeout settings;
       ss_RunnerCount := ss_RunnerCount settings;
       ss_RedrivePolicy := ss_RedrivePolicy settings;
       ss_ClientName := ss_ClientName settings |} in
  let targets :=
    map (fun t =>
           let targetAppId := {| Project := "";
                                 Family := target_Family t;
                                 Application := target_Application t |} in
           let targetAppId := PadFromConfig config targetAppId in
           {| st_AppId := targetAppId;
              st_TopicId := target_TopicId t;
              st_Attributes := target_Attributes t |})
        (sns_Targets configuration) in
  (settings, targets).

Definition readSqsInputSettings (config : Config) (name : string)
  : SqsInputSettings :=
  let key := ConfigurableInputKey name in
  let configuration := UnmarshalKey_sqs config key sqsInputConfiguration_zero in
  let clientName := sqs_ClientName configuration in
  let clientName :=
    if String.eqb clientName "" then "stream-input-" +:+ name
    else clientName in
  let settings :=
    {| qs_AppId := {| Project := "";
                      Family := sqs_Family configuration;
                      Application := sqs_Application configuration |};
       qs_QueueId := sqs_QueueId configuration;
       qs_MaxNumberOfMessages := sqs_MaxNumberOfMessages configuration;
       qs_WaitTime := sqs_WaitTime configuration;
       qs_VisibilityTimeout := sqs_VisibilityTimeout configuration;
       qs_RunnerCount := sqs_RunnerCount configuration;
       qs_Fifo := sqs_Fifo configuration;
       qs_RedrivePolicy := sqs_RedrivePolicy configuration;
       qs_ClientName := clientName;
       qs_Unmarshaller := sqs_Unmarshaller configuration |} in
  {| qs_AppId := PadFromConfig config (qs_AppId settings);
     qs_QueueId := qs_QueueId settings;
     qs_MaxNumberOfMessages := qs_MaxNumberOfMessages settings;
     qs_WaitTime := qs_WaitTime settings;
     qs_VisibilityTimeout := qs_VisibilityTimeout settings;
     qs_RunnerCount := qs_RunnerCount settings;
     qs_Fifo := qs_Fifo settings;
     qs_RedrivePolicy := qs_RedrivePolicy settings;
     qs_ClientName := qs_ClientName settings;
     qs_Unmarshaller := qs_Unmarshaller settings |}.

Context `{Constructors}.

Definition newFileInputFromConfig : InputFactory := fun config name =>
  let key := ConfigurableInputKey name in
  let settings := FileSettings_zero in
  let settings := UnmarshalKey_file config key settings in
  (Some (NewFileInput config settings), None).

Definition newInMemoryInputFromConfig : InputFactory := fun config name =>
  let key := ConfigurableInputKey name in
  let settings := InMemorySettings_zero in
  let settings := UnmarshalKey_inMemory config key settings in
  (Some (ProvideInMemoryInput name settings), None).

Definition newKinesisInputFromConfig : InputFactory := fun config name =>
  let key := ConfigurableInputKey name in
  let settings := KinesisInputConfiguration_zero in
  let settings := UnmarshalKey_kinesis config key settings in
  let settings :=
    {| kinesis_Settings := kinesis_setName name (kinesis_Settings settings);
       kinesis_Type := kinesis_Type settings |} in
  NewKinesisInput config (kinesis_Settings settings).

Definition newRedisInputFromConfig : InputFactory := fun config name =>
  let key := ConfigurableInputKey name in
  let configuration := redisInputConfiguration_zero in
  let configuration := UnmarshalKey_redis config key configuration in
  let settings :=
    {| rs_AppId := {| Project := redis_Project configuration;
                      Family := redis_Family configuration;
                      Application := redis_Application configuration |};
       rs_ServerName := redis_ServerName configuration;
       rs_Key := redis_Key configuration;
       rs_WaitTime := redis_WaitTime configuration |} in
  NewRedisListInput config settings.

Definition newSnsInputFromConfig : InputFactory := fun config name =>
  let '(settings, targets) := readSnsInputSettings config name in
  NewSnsInput config settings targets.

Definition newSqsInputFromConfig : InputFactory := fun config name =>
  let settings := readSqsInputSettings config name in
  NewSqsInput config settings.

(** The package variable [inputFactories] as it is initialised. *)
Definition inputFactories : gmap string InputFactory :=
  <[InputTypeFile := newFileInputFromConfig]>
  (<[InputTypeInMemory := newInMemoryInputFromConfig]>
  (<[InputTypeKinesis := newKinesisInputFromConfig]>
  (<[InputTypeRedis := newRedisInputFromConfig]>
  (<[InputTypeSns := newSnsInputFromConfig]>
  (<[InputTypeSqs := newSqsInputFromConfig]> ∅))))).

(** [SetInputFactory], on the value of the package variable. *)
Definition SetInputFactory (typ : string) (factory : InputFactory)
  (factories : gmap string InputFactory) : gmap string InputFactory :=
  <[typ := factory]> factories.

(** [NewConfigurableInput], [factories] being the value of the package
    variable [inputFactories] at the call. *)
Definition NewConfigurableInput (factories : gmap string InputFactory)
  (config : Config) (name : string) : Result :=
  let t := readInputType config name in
  match factories !! t with
  | None =>
      (None, Some (ErrorString
                     ("invalid input " +:+ name +:+ " of type " +:+ t)))
  | Some factory =>
      let '(input, err) := factory config name in
      match err with
      | Some cause => (None, Some (Wrapped "failed to create input: " cause))
      | None => (input, None)
      end
  end.

(** [ProvideConfigurableInput]. [inputs] is the value of the package variable
    [inputs] at the call, a map from names to inputs in which an entry may
    hold the nil input; the result comes with the value of the variable
    after the call. *)
Definition ProvideConfigurableInput (factories : gmap string InputFactory)
  (config : Config) (name : string) (inputs : gmap string (option Input))
  : Result * gmap string (option Input) :=
  match inputs !! name with
  | Some input => ((input, None), inputs)
  | None =>
      let '(input, err) := NewConfigurableInput factories config name in
      let inputs := <[name := input]> inputs in
      match err with
      | Some _ => ((None, err), inputs)
      | None => ((default None (inputs !! name), None), inputs)
      end
  end.

End WithTypes.

End stream.

(** The types of input the package knows from the start. *)
Definition inputTypes : list string :=
  [stream.InputTypeFile; stream.InputTypeInMemory; stream.InputTypeKinesis;
   stream.InputTypeRedis; stream.InputTypeSns; stream.InputTypeSqs].

(** What [NewConfigurableInput] makes of the result of a factory. *)
Definition created `{stream.Types} (result : stream.Result) : stream.Result :=
  match snd result with
  | Some cause => (None, Some (Wrapped "failed to create input: " cause))
  | None => (fst result, None)
  end.

(** ** Sample stream configuration *)

(** Inputs that are described by a string, settings that are strings or
    numbers. *)
Definition sampleTypes : stream.Types :=
  {| stream.Input := string;
     stream.any := Z;
     stream.FileSettings := string;
     stream.FileSettings_zero := "";
     stream.InMemorySettings := Z;
     stream.InMemorySettings_zero := 0;
     stream.KinesisSettings := string;
     stream.KinesisSettings_zero := "";
     stream.kinesis_setName := fun name _ => name;
     stream.RedrivePolicy := bool;
     stream.RedrivePolicy_zero := false;
     stream.FifoSettings := bool;
     stream.FifoSettings_zero := false |}.

(** A configuration with an sqs input [orders], a redis input [cache], a
    file input [dump] and an input [events] of a type the package does not
    know. Only the queue of [orders] is configured. *)
Definition sampleStreamConfig : @stream.Config sampleTypes :=
  {| stream.GetString := fun key =>
       if String.eqb key "stream.input.orders.type" then "sqs"
       else if String.eqb key "stream.input.cache.type" then "redis"
       else if String.eqb key "stream.input.events.type" then "kafka"
       else if String.eqb key "stream.input.dump.type" then "file"
       else "";
     stream.GetStringMap := fun key def =>
       if String.eqb key "stream.input"
       then {[ "orders" := 1; "cache" := 2; "events" := 3; "dump" := 4 ]}
       else def;
     stream.UnmarshalKey_file := fun _ settings => settings;
     stream.UnmarshalKey_inMemory := fun _ settings => settings;
     stream.UnmarshalKey_kinesis := fun _ settings => settings;
     stream.UnmarshalKey_redis := fun _ settings => settings;
     stream.UnmarshalKey_sns := fun _ settings => settings;
     stream.UnmarshalKey_sqs := fun key settings =>
       if String.eqb key "stream.input.orders"
       then {| stream.sqs_Family := stream.sqs_Family settings;
               stream.sqs_Application := stream.sqs_Application settings;
               stream.sqs_QueueId := "orders-queue";
               stream.sqs_MaxNumberOfMessages := 10;
               stream.sqs_WaitTime := 3;
               stream.sqs_VisibilityTimeout := 30;
               stream.sqs_RunnerCount := 1;
               stream.sqs_Fifo := stream.sqs_Fifo settings;
               stream.sqs_RedrivePolicy := stream.sqs_RedrivePolicy settings;
               stream.sqs_ClientName := stream.sqs_ClientName settings;
               stream.sqs_Unmarshaller := "msg" |}
       else settings;
     stream.PadFromConfig := fun appId => appId |}.

(** Constructors of which the one for redis needs a key and the one for sqs
    a queue. *)
Definition sampleConstructors : @stream.Constructors sampleTypes :=
  @stream.Build_Constructors sampleTypes
    (fun _ settings => "file:" +:+ settings)
    (fun name _ => "memory:" +:+ name)
    (fun _ settings => (Some ("kinesis:" +:+ settings), None))
    (fun _ settings =>
       if String.eqb (stream.rs_Key settings) ""
       then (None, Some (ErrorString "redis: no key"))
       else (Some ("redis:" +:+ stream.rs_Key settings), None))
    (fun _ settings _ => (Some ("sns:" +:+ stream.ss_QueueId settings), None))
    (fun _ settings =>
       if String.eqb (stream.qs_QueueId settings) ""
       then (None, Some (ErrorString "sqs: no queue"))
       else (Some ("sqs:" +:+ stream.qs_QueueId settings), None)).

(** A factory for a type of input the package does not know. *)
Definition kafkaFactory : @stream.InputFactory sampleTypes :=
  fun _ name =>
    ((Some ("kafka:" +:+ name) : option (@stream.Input sampleTypes)), None).

(** * Slices through reflection (package refl) *)

Module refl.

(** The Go types the model covers: integers, strings, booleans, the empty
    interface, pointers and slices. *)
Inductive type : Type :=
| TInt
| TString
| TBool
| TInterface
| TPtr (elem : type)
| TSlice (elem : type).

(** The values of these types. A pointer is nil or points to a value; a
    slice carries the type of its elements; [VInterface] is a value of
    interface type, as it sits in a slice of interfaces or behind a pointer:
    nil or some value of another type. *)
#[warnings="-register-all"]
Inductive value : Type :=
| VInt (n : Z)
| VString (s : string)
| VBool (b : bool)
| VInterface (dynamic : option value)
| VPtr (elem : type) (target : option value)
| VSlice (elem : type) (elems : list value).

(** A value of type [any] as a function receives it: nil, or a value with
    its dynamic type. *)
Definition any : Type := option value.

(** [reflect.Value]: the zero Value or a value. *)
Definition Value : Type := option value.

Inductive Kind : Type :=
| Invalid | Int | String_ | Bool | Interface | Ptr | Slice.

Definition Kind_eqb (a b : Kind) : bool :=
  match a, b with
  | Invalid, Invalid | Int, Int | String_, String_ | Bool, Bool
  | Interface, Interface | Ptr, Ptr | Slice, Slice => true
  | _, _ => false
  end.

Definition typeOf (v : value) : type :=
  match v with
  | VInt _ => TInt
  | VString _ => TString
  | VBool _ => TBool
  | VInterface _ => TInterface
  | VPtr elem _ => TPtr elem
  | VSlice elem _ => TSlice elem
  end.

Definition kindOfType (t : type) : Kind :=
  match t with
  | TInt => Int
  | TString => String_
  | TBool => Bool
  | TInterface => Interface
  | TPtr _ => Ptr
  | TSlice _ => Slice
  end.

(** [reflect.ValueOf]. *)
Definition ValueOf (i : any) : Value := i.

(** [Value.Kind]: [Invalid] for the zero Value. *)
Definition kind (v : Value) : Kind :=
  match v with
  | None => Invalid
  | Some v => kindOfType (typeOf v)
  end.

(** [Value.Elem] on a pointer: what it points to, the zero Value for the
    nil pointer. *)
Definition Elem (v : Value) : Value :=
  match v with
  | Some (VPtr _ target) => target
  | _ => None
  end.

(** [Value.Interface] on an element: the value as an [any]. The value
    inside an interface comes out as it is, nil included. *)
Definition Interface_ (v : value) : any :=
  match v with
  | VInterface dynamic => dynamic
  | v => Some v
  end.

(** The name [%T] prints for a type. *)
Fixpoint typeString (t : type) : string :=
  match t with
  | TInt => "int"
  | TString => "string"
  | TBool => "bool"
  | TInterface => "interface {}"
  | TPtr elem => "*" +:+ typeString elem
  | TSlice elem => "[]" +:+ typeString elem
  end.

Definition dynamicTypeString (i : any) : string :=
  match i with
  | None => "<nil>"
  | Some v => typeString (typeOf v)
  end.

(** The loop [for i := 0; i < val.Len(); i++ { out[i] = val.Index(i).Interface() }]
    over the elements of a slice. *)
Fixpoint copyElements (elems : list value) : list any :=
  match elems with
  | [] => []
  | v :: elems' => Interface_ v :: copyElements elems'
  end.

Definition InterfaceToInterfaceSlice (i : any) : list any * option error :=
  match i with
  | Some (VSlice TInterface si) => (copyElements si, None)
  | _ =>
      let val := ValueOf i in
      let val := if Kind_eqb (kind val) Ptr then Elem val else val in
      if negb (Kind_eqb (kind val) Slice)
      then ([], Some (ErrorString
                        ("input is not an slice but instead of type "
                         +:+ dynamicTypeString i)))
      else match val with
           | Some (VSlice _ elems) => (copyElements elems, None)
           | _ => ([], None)
           end
  end.

(** ** The iterator *)

Record sliceIterator : Type := {
  current : Z;
  length_ : Z;
  slice : list value
}.

Definition Next (s : sliceIterator) : bool := current s <? length_ s.

Definition Len (s : sliceIterator) : Z := length_ s.

(** [Val]: the element at the current index, and the iterator moved on by
    one. [None]: [Index] panics, the index being out of range. *)
Definition Val (s : sliceIterator) : option (any * sliceIterator) :=
  let c := current s in
  let s' := {| current := current s + 1;
               length_ := length_ s;
               slice := slice s |} in
  if (0 <=? c) && (c <? Z.of_nat (length (slice s)))
  then match slice s !! Z.to_nat c with
       | Some v => Some (Interface_ v, s')
       | None => None
       end
  else None.

(** [SliceInterfaceIterator], from the slice value that the resolution of
    its argument yields (the function that resolves it is not at hand). *)
Definition SliceInterfaceIterator (sv : list value) : sliceIterator :=
  {| current := 0; length_ := Z.of_nat (length sv); slice := sv |}.

(** The loop [for it.Next() { out = append(out, it.Val()) }] of a user of
    the iterator, for at most [fuel] rounds. [None]: a panic. *)
Fixpoint drain (fuel : nat) (it : sliceIterator) (out : list any)
  : option (list any * sliceIterator) :=
  match fuel with
  | O => Some (out, it)
  | S fuel' =>
      if Next it
      then match Val it with
           | Some (v, it') => drain fuel' it' (out ++ [v])
           | None => None
           end
      else Some (out, it)
  end.

(** ** Appending to a slice behind a pointer *)

(** What a call comes to: it returns, or it panics. *)
Inductive outcome (A : Type) : Type :=
| Returned (a : A)
| Panicked.

Arguments Returned {A} a.
Arguments Panicked {A}.

Record Slice_ : Type := {
  slice_ : any;
  sliceType : type;
  sliceValue : Value;
  elementType : type;
  elementPtr : bool
}.

(** [Type.Elem]: the element type of a pointer or a slice; it panics on the
    other types of the model. *)
Definition typeElem (t : type) : outcome type :=
  match t with
  | TPtr elem => Returned elem
  | TSlice elem => Returned elem
  | _ => Panicked
  end.

(** [SliceOf]. [reflect.TypeOf] of the nil interface is the nil type, on
    which [Kind] panics. *)
Definition SliceOf (slice : any) : outcome (option Slice_ * option error) :=
  match slice with
  | None => Panicked
  | Some v =>
      let sliceType := typeOf v in
      if negb (Kind_eqb (kindOfType sliceType) Ptr)
      then Returned (None, Some (ErrorString "the slice has to be addressable"))
      else
        match typeElem sliceType with
        | Panicked => Panicked
        | Returned sliceType =>
            let sliceValue := ValueOf slice in
            let sliceValue :=
              if Kind_eqb (kind sliceValue) Ptr then Elem sliceValue
              else sliceValue in
            match typeElem sliceType with
            | Panicked => Panicked
            | Returned elementType =>
                let elementPtr := Kind_eqb (kindOfType elementType) Ptr in
                match (if elementPtr then typeElem elementType
                       else Returned elementType) with
                | Panicked => Panicked
                | Returned elementType =>
                    Returned (Some {| slice_ := slice;
                                      sliceType := sliceType;
                                      sliceValue := sliceValue;
                                      elementType := elementType;
                                      elementPtr := elementPtr |}, None)
                end
            end
        end
  end.



Fixpoint type_eqb (a b : type) : bool :=
  match a, b with
  | TInt, TInt | TString, TString | TBool, TBool
  | TInterface, TInterface => true
  | TPtr a', TPtr b' => type_eqb a' b'
  | TSlice a', TSlice b' => type_eqb a' b'
  | _, _ => false
  end.

(** [reflect.Append(s, x)] with one value: it panics unless [s] is a slice
    and [x] is a value that can be assigned to the elements of [s], which
    it can when it has their type or when they are interfaces. A value
    assigned to an interface sits inside the interface. *)
Definition reflectAppend (s x : Value) : outcome value :=
  match s, x with
  | Some (VSlice elem elems), Some v =>
      if type_eqb (typeOf v) elem then Returned (VSlice elem (elems ++ [v]))
      else match elem with
           | TInterface => Returned (VSlice elem (elems ++ [VInterface (Some v)]))
           | _ => Panicked
           end
  | _, _ => Panicked
  end.

(** Writing through a pointer: the pointer, now pointing to [v]. *)
Definition store (p : any) (v : value) : any :=
  match p with
  | Some (VPtr elem _) => Some (VPtr elem (Some v))
  | _ => p
  end.

(** [Append]: the error it returns, and the slice afterwards. The slice
    value is what the pointer the [Slice_] was made from points to, so
    setting it writes through that pointer. *)
Definition Append (s : Slice_) (elem : any)
  : outcome (option error * Slice_) :=
  let ev := ValueOf elem in
  if elementPtr s && negb (Kind_eqb (kind ev) Ptr)
  then Returned
         (Some (ErrorString
                  "the value which you try to append to the slice has to be addressable"),
          s)
  else
    let ev :=
      if negb (elementPtr s) && Kind_eqb (kind ev) Ptr then Elem ev else ev in
    match reflectAppend (sliceValue s) ev with
    | Panicked => Panicked
    | Returned v =>
        Returned (None, {| slice_ := store (slice_ s) v;
                           sliceType := sliceType s;
                           sliceValue := Some v;
                           elementType := elementType s;
                           elementPtr := elementPtr s |})
    end.

(** The elements of the slice a [Slice_] stands for. *)
Definition elements (s : Slice_) : list value :=
  match sliceValue s with
  | Some (VSlice _ elems) => elems
  | _ => []
  end.

(** The slice an argument stands for: the argument itself when it is a
    slice, what it points to when it is a pointer to a slice. *)
Definition sliceBehind (i : any) : option (list value) :=
  match i with
  | Some (VSlice _ elems) => Some elems
  | Some (VPtr _ (Some (VSlice _ elems))) => Some elems
  | _ => None
  end.

(** A pointer to a slice with elements of type [t]. *)
Definition pointerToSlice (t : type) (elems : list value) : any :=
  Some (VPtr (TSlice t) (Some (VSlice t elems))).


(** Sample values: a slice of integers and an empty slice of pointers to
    integers. *)
Definition sampleInts : value := VSlice TInt [VInt 1; VInt 2; VInt 3].

Definition sampleSlice : Slice_ :=
  {| slice_ := pointerToSlice TInt [VInt 1];
     sliceType := TSlice TInt;
     sliceValue := Some (VSlice TInt [VInt 1]);
     elementType := TInt;
     elementPtr := false |}.

End refl.

(** * Properties *)

(** Unfolds one iteration of a worker down to the record of its final
    state. *)
Ltac run_case :=
  unfold process, received, case_of, executeRead_case, executeWrite_case,
    executeWrite_put, executeWrite_close, executeCopy_case,
    executeDelete_case, bind, ret, current, call, closeBody, writeMetric,
    assign_Body, assign_Exists, assign_Error, wg_Done, effect;
  cbn [object writer trace fst snd].

(** Splits an iteration along the outcomes of the calls it makes: the result
    of the store call, the test for an absent object, and the result of
    closing the body. *)
Ltac case_results client :=
  repeat (first
    [ match goal with
      | |- context [s3.GetObject client ?i] =>
          destruct (s3.GetObject client i) as [? | ?]
      end
    | match goal with
      | |- context [s3.PutObject client ?i] =>
          destruct (s3.PutObject client i) as [? | ]
      end
    | match goal with
      | |- context [s3.CopyObject client ?i] =>
          destruct (s3.CopyObject client i) as [? | ]
      end
    | match goal with
      | |- context [s3.DeleteObject client ?i] =>
          destruct (s3.DeleteObject client i) as [? | ]
      end
    | match goal with
      | |- context [isNotFound ?e] => destruct (isNotFound e)
      end
    | match goal with
      | |- context [fst (Close ?b)] => destruct (fst (Close b)) as [? | ]
      end ];
    cbn [object writer trace fst snd]).

(** ** The read worker *)

(** The three outcomes of a read, by the result of the get. *)
Lemma read_outcome (client : s3.Client) (o : Object) (w : metric.Writer) :
  let o' := object (process client operationRead o w) in
  match s3.GetObject client (getObjectInput o) with
  | inl out =>
      Body o' = Some (StreamReader (s3.out_Body out))
      /\ Exists o' = true /\ Error o' = None
  | inr err =>
      Body o' = Some (StreamReader None)
      /\ if isNotFound err then Exists o' = false /\ Error o' = None
         else Exists o' = true /\ Error o' = Some err
  end.
Proof.
  run_case.
  destruct (s3.GetObject client (getObjectInput o)) as [out | err]; cbn.
  - auto.
  - destruct (isNotFound err); cbn; auto.
Qed.

(** Only a request failure with status 404 counts as an absent object. *)
Lemma isNotFound_spec (err : error) :
  isNotFound err = true <-> exists message, err = RequestFailure 404 message.
Proof.
  split.
  - destruct err as [statusCode message | | | ]; cbn; try discriminate.
    intros H. apply Z.eqb_eq in H. subst. now exists message.
  - intros [message ->]. reflexivity.
Qed.

(** A failure of the get other than the absence of the object is handed to
    the job as its error, and the job is flagged as existing: the flag starts
    out true in the worker and only the absence of the object clears it. *)
Lemma read_failure_keeps_exists (client : s3.Client) (o : Object)
  (w : metric.Writer) (err : error) :
  s3.GetObject client (getObjectInput o) = inr err ->
  isNotFound err = false ->
  Error (object (process client operationRead o w)) = Some err
  /\ Exists (object (process client operationRead o w)) = true.
Proof.
  intros Hget Hnf. pose proof (read_outcome client o w) as H.
  cbn zeta in H. rewrite Hget, Hnf in H. tauto.
Qed.

(** C1, at a store whose get fails with status 500: after the read worker
    has completed the job, the error of the job is that failure, which is not
    the absence of the object, and the existence flag of the job is true
    although the producer had left it false. *)
Theorem C1_read_failure_flagged_existing :
  let o' := object (process brokenStore operationRead sampleJob emptyWriter) in
  s3.GetObject brokenStore (getObjectInput sampleJob)
    = inr (RequestFailure 500 "InternalError")
  /\ isNotFound (RequestFailure 500 "InternalError") = false
  /\ Exists sampleJob = false
  /\ Error o' = Some (RequestFailure 500 "InternalError")
  /\ Exists o' = true.
Proof. cbn. repeat split; reflexivity. Qed.



(** C10: on every path the read worker overwrites the body of the job with a
    reader stream before it releases the job. The stream wraps the body the
    store returned, and the nil reader when the object is absent or the get
    failed. The body of the job afterwards is therefore never nil, does not
    depend on what the producer had left in the field, and the write to the
    field precedes the release in the trace. *)
Theorem C10_read_overwrites_body (client : s3.Client) (o : Object)
  (w : metric.Writer) :
  let st := process client operationRead o w in
  Body (object st)
    = Some (StreamReader
              match s3.GetObject client (getObjectInput o) with
              | inl out => s3.out_Body out
              | inr _ => None
              end)
  /\ Body (object st) <> None
  /\ (forall b, Body (object (process client operationRead (set_Body b o) w))
                = Body (object st))
  /\ trace st = [EvReceive operationRead; EvCall operationRead;
                 EvMetric operationRead; EvSet FieldBody; EvSet FieldExists;
                 EvSet FieldError; EvDone].
Proof.
  cbn zeta.
  assert (Hbody : forall o0, Body (object (process client operationRead o0 w))
    = Some (StreamReader
              match s3.GetObject client (getObjectInput o0) with
              | inl out => s3.out_Body out
              | inr _ => None
              end)).
  { intros o0. pose proof (read_outcome client o0 w) as H. cbn zeta in H.
    destruct (s3.GetObject client (getObjectInput o0)); tauto. }
  repeat split.
  - apply Hbody.
  - rewrite Hbody. discriminate.
  - intros b. rewrite !Hbody. reflexivity.
  - run_case.
    destruct (s3.GetObject client (getObjectInput o)) as [out | err]; cbn;
      [ | destruct (isNotFound err)]; reflexivity.
Qed.

(** ** The write worker *)

(** Appending one error to an error field: the components of the field come
    first, those of the appended error after them. *)
Lemma Append_one (err c : option error) :
  multierror.Append err [c]
  = MultiError (multierror.flatten err ++ multierror.flatten c).
Proof.
  unfold multierror.Append, multierror.AppendTo.
  destruct err as [[statusCode message | message | message cause | es] | ];
    cbn; rewrite ?app_nil_r; reflexivity.
Qed.

Lemma visible_left (e : error) (rest : list error) :
  visible e (Some (MultiError (multierror.flatten (Some e) ++ rest))).
Proof.
  right. eexists. split; [reflexivity | ].
  intros c Hc. apply in_or_app. now left.
Qed.

Lemma visible_right (e : error) (first : list error) :
  visible e (Some (MultiError (first ++ multierror.flatten (Some e)))).
Proof.
  right. eexists. split; [reflexivity | ].
  intros c Hc. apply in_or_app. now right.
Qed.

(** The job right after the outcome of the put has been written to it. *)
Lemma write_put_outcome (client : s3.Client) (o : Object) (w : metric.Writer) :
  let after_put :=
    object (snd (executeWrite_put client (received operationWrite o w))) in
  match s3.PutObject client (putObjectInput o (wrappedBody o)) with
  | None => Exists after_put = true /\ Error after_put = Error o
  | Some err => Exists after_put = false /\ Error after_put = Some err
  end.
Proof.
  run_case.
  destruct (s3.PutObject client _) as [err | ]; cbn; auto.
Qed.

(** The job and the trace at the end of a write, by the outcomes of the put
    and of the close. *)
Lemma write_outcome (client : s3.Client) (o : Object) (w : metric.Writer) :
  let st := process client operationWrite o w in
  let after_put :=
    object (snd (executeWrite_put client (received operationWrite o w))) in
  Exists (object st) = Exists after_put
  /\ match fst (Close (wrappedBody o)) with
     | None =>
         Error (object st) = Error after_put
         /\ trace st
            = [EvReceive operationWrite; EvCall operationWrite]
              ++ putSets (s3.PutObject client (putObjectInput o (wrappedBody o)))
              ++ [EvClose; EvMetric operationWrite; EvDone]
     | Some cerr =>
         Error (object st)
         = Some (multierror.Append (Error after_put) [Some cerr])
         /\ trace st
            = [EvReceive operationWrite; EvCall operationWrite]
              ++ putSets (s3.PutObject client (putObjectInput o (wrappedBody o)))
              ++ [EvClose; EvSet FieldError; EvMetric operationWrite; EvDone]
     end.
Proof.
  run_case.
  destruct (s3.PutObject client _) as [perr | ];
    cbn [object writer trace fst snd];
    destruct (fst (Close (wrappedBody o))) as [cerr | ]; cbn; auto.
Qed.



(** C5: the write worker closes the wrapped body after the put attempt, on
    every path. When the close fails after a failed put, the error of the job
    is the aggregate of the put failure followed by the close failure, so both
    are visible and the put failure stays in front; when only the close
    fails, the close failure is appended to whatever the error field held
    (nothing, for a fresh job) and is visible in it. *)
Theorem C5_write_close_error_appended (client : s3.Client) (o : Object)
  (w : metric.Writer) (cerr : error) :
  fst (Close (wrappedBody o)) = Some cerr ->
  let st := process client operationWrite o w in
  (exists sets, trace st
     = [EvReceive operationWrite; EvCall operationWrite] ++ sets
       ++ [EvClose; EvSet FieldError; EvMetric operationWrite; EvDone])
  /\ visible cerr (Error (object st))
  /\ match s3.PutObject client (putObjectInput o (wrappedBody o)) with
     | Some perr =>
         Error (object st)
         = Some (MultiError (multierror.flatten (Some perr)
                             ++ multierror.flatten (Some cerr)))
         /\ visible perr (Error (object st))
     | None =>
         Error (object st)
         = Some (MultiError (multierror.flatten (Error o)
                             ++ multierror.flatten (Some cerr)))
     end.
Proof.
  intros Hc. cbn zeta.
  pose proof (write_put_outcome client o w) as Hput.
  pose proof (write_outcome client o w) as [_ Hclose].
  cbn zeta in Hput. rewrite Hc in Hclose. destruct Hclose as [Herr Htr].
  rewrite Append_one in Herr. split; [ | split].
  - eexists. exact Htr.
  - rewrite Herr. apply visible_right.
  - destruct (s3.PutObject client _) as [perr | ];
      destruct Hput as [_ Hput]; rewrite Herr, Hput.
    + split; [reflexivity | apply visible_left].
    + reflexivity.
Qed.

Lemma C5_write_close_error_appended_witness :
  Error (object (process brokenStore operationWrite leakyJob emptyWriter))
  = Some (MultiError [ErrorString "put failed"; ErrorString "close failed"])
  /\ Error (object (process fullStore operationWrite leakyJob emptyWriter))
     = Some (MultiError [ErrorString "close failed"]).
Proof.
  pose proof (C5_write_close_error_appended brokenStore leakyJob emptyWriter
                (ErrorString "close failed") eq_refl) as (_ & _ & H1).
  pose proof (C5_write_close_error_appended fullStore leakyJob emptyWriter
                (ErrorString "close failed") eq_refl) as (_ & _ & H2).
  cbn zeta in *.
  change (s3.PutObject brokenStore
            (putObjectInput leakyJob (wrappedBody leakyJob)))
    with (Some (ErrorString "put failed")) in H1.
  change (s3.PutObject fullStore
            (putObjectInput leakyJob (wrappedBody leakyJob)))
    with (@None error) in H2.
  destruct H1 as [H1 _]. split; [exact H1 | exact H2].
Defined.

(** ** The copy worker *)

(** C7: a copy job whose copy fails gets its error field set and nothing
    else; the existence flag of a copy job is what the producer left, whether
    the copy fails or succeeds, and the worker never writes it. Apart from
    the error field only the wait group of the job changes, by its release. *)
Theorem C7_copy_sets_error_only (client : s3.Client) (o : Object)
  (w : metric.Writer) :
  let st := process client operationCopy o w in
  Exists (object st) = Exists o
  /\ ~ In (EvSet FieldExists) (trace st)
  /\ match s3.CopyObject client (copyObjectInput o) with
     | Some err =>
         object st = set_wg_Done (set_Error (Some err) o)
         /\ trace st = [EvReceive operationCopy; EvCall operationCopy;
                        EvSet FieldError; EvMetric operationCopy; EvDone]
     | None =>
         object st = set_wg_Done o
         /\ trace st = [EvReceive operationCopy; EvCall operationCopy;
                        EvMetric operationCopy; EvDone]
     end.
Proof.
  run_case.
  destruct (s3.CopyObject client (copyObjectInput o)) as [err | ]; cbn;
    (repeat split; try reflexivity);
    intros H; repeat (destruct H as [H | H]; [discriminate H | ]); exact H.
Qed.

(** ** All four workers *)


(** What one job leaves behind, for every kind and every outcome: one more
    datum, of the kind of the worker; one metric and one release in the
    trace; a wait group counter one lower. *)
Lemma process_effects (client : s3.Client) (op : Operation) (o : Object)
  (w : metric.Writer) :
  let st := process client op o w in
  metric.written (writer st)
    = metric.written w ++ [datum (operation_string op) 1%Q]
  /\ metric.defaults (writer st) = metric.defaults w
  /\ count isAnyMetric (trace st) = 1%nat
  /\ count (isMetric op) (trace st) = 1%nat
  /\ count isDone (trace st) = 1%nat
  /\ wg (object st) = wg o - 1.
Proof.
  cbn zeta. repeat apply conj;
    destruct op; run_case; case_results client; reflexivity.
Qed.


Lemma count_app {A} (p : A -> bool) (l1 l2 : list A) :
  count p (l1 ++ l2) = (count p l1 + count p l2)%nat.
Proof. unfold count. now rewrite List.filter_app, length_app. Qed.

(** A pool that receives the jobs [jobs] one after the other, without the
    shutdown being selected in between, hands back every one of them: each
    job is released once, with one datum written for it. *)
Lemma worker_releases_every_job (client : s3.Client) (op : Operation)
  (jobs : list Object) (w0 : World) :
  let w' := worker client op (map SelectReceive jobs) w0 in
  map wg (finished w') = map wg (finished w0) ++ map (fun o => wg o - 1) jobs
  /\ metric.written (metricWriter w')
     = metric.written (metricWriter w0)
       ++ replicate (length jobs) (datum (operation_string op) 1%Q)
  /\ count isDone (events w') = (count isDone (events w0) + length jobs)%nat
  /\ count (isMetric op) (events w')
     = (count (isMetric op) (events w0) + length jobs)%nat.
Proof.
  cbn zeta. revert w0.
  induction jobs as [ | o jobs IH]; intros w0; cbn [map worker length].
  - cbn. rewrite !app_nil_r. auto with arith.
  - destruct (IH (iteration client op o w0)) as (Hwg & Hwr & Hdone & Hmet).
    destruct (process_effects client op o (metricWriter w0))
      as (Pwr & _ & _ & Pmet & Pdone & Pwg).
    unfold iteration in *. cbn [metricWriter events finished] in *.
    rewrite Hwg, Hwr, Hdone, Hmet, Pwr, !count_app, Pdone, Pmet.
    rewrite map_app. cbn [map]. rewrite Pwg, <- !app_assoc. cbn.
    repeat split; lia.
Qed.

(** Once the shutdown is selected the worker returns: the jobs that would
    have come after it are not touched. *)
Lemma worker_stops_at_done (client : s3.Client) (op : Operation)
  (sels : list Selected) (w0 : World) :
  worker client op (SelectDone :: sels) w0 = w0.
Proof. reflexivity. Qed.

(** ** The order of the steps of one job *)

(** C4, at a read of a stored object: the read worker emits the metric
    before it writes the result fields of the job, so the order receive,
    result fields, metric, release does not hold for this job. *)
Lemma C4_read_metric_before_fields :
  trace (process fullStore operationRead sampleJob emptyWriter)
  = [EvReceive operationRead; EvCall operationRead; EvMetric operationRead;
     EvSet FieldBody; EvSet FieldExists; EvSet FieldError; EvDone]
  /\ receive_set_metric_done operationRead
       (trace (process fullStore operationRead sampleJob emptyWriter))
     = false.
Proof. split; reflexivity. Qed.

(** C4, amended: every worker starts with the receive of the job and ends
    with its release, which happens once. The write, copy and delete workers
    write the result fields they write before they emit the metric, and
    release the job right after the metric. The read worker emits the metric
    first, then writes body, existence flag and error, then releases the
    job. *)
Theorem C4_order_of_steps (client : s3.Client) (op : Operation) (o : Object)
  (w : metric.Writer) :
  let tr := trace (process client op o w) in
  head tr = Some (EvReceive op)
  /\ List.last tr (EvReceive op) = EvDone
  /\ count isDone tr = 1%nat
  /\ match op with
     | operationRead =>
         tr = [EvReceive operationRead; EvCall operationRead;
               EvMetric operationRead; EvSet FieldBody; EvSet FieldExists;
               EvSet FieldError; EvDone]
     | _ =>
         receive_set_metric_done op tr = true
         /\ exists fields,
              tr = [EvReceive op; EvCall op] ++ fields
                   ++ [EvMetric op; EvDone]
              /\ forallb (fun ev => isSet ev || isClose ev) fields = true
     end.
Proof.
  cbn zeta. repeat apply conj;
    destruct op; run_case; case_results client; cbn [app];
    try reflexivity;
    (split; [reflexivity | ]);
    match goal with
    | |- exists fields, ?tr = _ /\ _ =>
        exists (removelast (removelast (tl (tl tr))))
    end;
    split; reflexivity.
Qed.

(** ** Construction *)

(** C8: a runner that has been constructed holds a metric writer that is
    pre-registered with the default metrics and to which nothing has been
    written yet. The default metrics are four zero-valued counters, exactly
    one for each of the kinds Read, Write, Copy and Delete. *)
Theorem C8_default_metrics_registered (config : Config) (r : batchRunner) :
  NewBatchRunner config = inl r ->
  metric.defaults (metric_ r) = getDefaultRunnerMetrics
  /\ metric.written (metric_ r) = []
  /\ length getDefaultRunnerMetrics = 4%nat
  /\ (forall op, count (hasOperation op) getDefaultRunnerMetrics = 1%nat)
  /\ Forall isZeroCounter getDefaultRunnerMetrics.
Proof.
  unfold NewBatchRunner. intros Hnew.
  destruct (provideClient config) as [c | err]; [ | discriminate Hnew].
  injection Hnew as <-. cbn [metric_ metric.defaults metric.written
                             metric.NewWriter].
  repeat apply conj; try reflexivity.
  - intros op. destruct op; vm_compute; reflexivity.
  - unfold getDefaultRunnerMetrics, isZeroCounter.
    repeat constructor.
Qed.

Lemma C8_default_metrics_registered_witness :
  exists r, NewBatchRunner sampleConfig = inl r
            /\ metric.defaults (metric_ r) = getDefaultRunnerMetrics
            /\ metric.written (metric_ r) = [].
Proof.
  eexists. split; [reflexivity | ].
  pose proof (C8_default_metrics_registered sampleConfig _ eq_refl)
    as (H1 & H2 & _).
  split; [exact H1 | exact H2].
Defined.

(** ** Run *)

(** Past its return, [Run] does nothing more. *)
Lemma Run_from_returned (s : BatchRunnerSettings) (ctxDone : nat -> bool)
  (fuel t : nat) (tr : list RunEvent) :
  Run_from s ctxDone fuel t PcReturned tr = (PcReturned, tr).
Proof.
  revert t. induction fuel as [ | fuel IH]; intros t; cbn; auto.
Qed.

(** Moments add up. *)
Lemma Run_from_add (s : BatchRunnerSettings) (ctxDone : nat -> bool)
  (a b t : nat) (pc : RunPc) (tr : list RunEvent) :
  Run_from s ctxDone (a + b) t pc tr
  = Run_from s ctxDone b (t + a)
      (fst (Run_from s ctxDone a t pc tr)) (snd (Run_from s ctxDone a t pc tr)).
Proof.
  revert t pc tr.
  induction a as [ | a IH]; intros t pc tr; cbn [Run_from Nat.add fst snd].
  - now rewrite Nat.add_0_r.
  - replace (t + S a)%nat with (S t + a)%nat by lia.
    destruct (Run_step s (ctxDone t) pc) as [[pc' evs] | ]; apply IH.
Qed.

(** The loop for [op], entered at [i]: it starts one worker per remaining
    index, whatever the context says, and then leaves for what follows. *)
Lemma Run_from_for (s : BatchRunnerSettings) (ctxDone : nat -> bool)
  (op : Operation) (k : nat) :
  forall (i : Z) (t : nat) (tr : list RunEvent),
    k = Z.to_nat (runnerCount s op - i) ->
    Run_from s ctxDone (k + 1) t (PcFor op i) tr
    = (afterFor op, tr ++ replicate k (EvGo op)).
Proof.
  induction k as [ | k IH]; intros i t tr Hk; cbn [Run_from Nat.add Run_step].
  - destruct (Z.ltb_spec i (runnerCount s op)) as [Hlt | Hge]; [lia | ].
    cbn. now rewrite !app_nil_r.
  - destruct (Z.ltb_spec i (runnerCount s op)) as [Hlt | Hge]; [ | lia].
    rewrite (IH (i + 1)) by lia.
    cbn [replicate]. now rewrite <- app_assoc.
Qed.

(** At its receive [Run] stays until a moment at which the context is done,
    and then returns nil. *)
Lemma Run_from_wait (s : BatchRunnerSettings) (ctxDone : nat -> bool)
  (fuel : nat) :
  forall (t : nat) (tr : list RunEvent),
    Run_from s ctxDone fuel t PcWaitDone tr
    = if existsb ctxDone (seq t fuel)
      then (PcReturned, tr ++ [EvReturn None])
      else (PcWaitDone, tr).
Proof.
  induction fuel as [ | fuel IH]; intros t tr; cbn [Run_from Run_step seq existsb].
  - reflexivity.
  - destruct (ctxDone t); cbn [orb].
    + apply Run_from_returned.
    + apply IH.
Qed.

(** [Run] up to its receive: all workers are started, in the order read,
    write, copy, delete, and nothing else has happened. *)
Lemma Run_reaches_wait (s : BatchRunnerSettings) (ctxDone : nat -> bool) :
  Run s ctxDone (startMoments s) = (PcWaitDone, started s).
Proof.
  unfold Run, startMoments, started.
  set (r := Z.to_nat (ReaderRunnerCount s)).
  set (w := Z.to_nat (WriterRunnerCount s)).
  set (c := Z.to_nat (CopyRunnerCount s)).
  set (d := Z.to_nat (DeleteRunnerCount s)).
  replace (r + w + c + d + 4)%nat
    with ((r + 1) + ((w + 1) + ((c + 1) + (d + 1))))%nat by lia.
  rewrite Run_from_add, (Run_from_for s ctxDone operationRead r)
    by (cbn; subst r; f_equal; lia).
  cbn [fst snd afterFor].
  rewrite Run_from_add, (Run_from_for s ctxDone operationWrite w)
    by (cbn; subst w; f_equal; lia).
  cbn [fst snd afterFor].
  rewrite Run_from_add, (Run_from_for s ctxDone operationCopy c)
    by (cbn; subst c; f_equal; lia).
  cbn [fst snd afterFor].
  rewrite (Run_from_for s ctxDone operationDelete d)
    by (cbn; subst d; f_equal; lia).
  cbn [afterFor app]. now rewrite <- !app_assoc.
Qed.

(** [Run] from its receive on. *)
Lemma Run_after_start (s : BatchRunnerSettings) (ctxDone : nat -> bool)
  (fuel : nat) :
  Run s ctxDone (startMoments s + fuel)
  = if existsb ctxDone (seq (startMoments s) fuel)
    then (PcReturned, started s ++ [EvReturn None])
    else (PcWaitDone, started s).
Proof.
  unfold Run. rewrite Run_from_add.
  change (Run_from s ctxDone (startMoments s) 0 (PcFor operationRead 0) [])
    with (Run s ctxDone (startMoments s)).
  rewrite Run_reaches_wait. cbn [fst snd Nat.add]. apply Run_from_wait.
Qed.

Lemma count_replicate_go (op op' : Operation) (n : nat) :
  count (isGo op) (replicate n (EvGo op'))
  = if Operation_eqb op op' then n else 0%nat.
Proof.
  unfold count. induction n as [ | n IH]; cbn [replicate List.filter isGo].
  - now destruct (Operation_eqb op op').
  - destruct (Operation_eqb op op'); cbn [length]; [now rewrite IH | exact IH].
Qed.

(** The number of workers of each kind among those started. *)
Lemma count_started (s : BatchRunnerSettings) (op : Operation) :
  count (isGo op) (started s) = Z.to_nat (runnerCount s op).
Proof.
  unfold started. rewrite !count_app, !count_replicate_go.
  destruct op; cbn; lia.
Qed.

(** C9: [Run] starts as many read, write, copy and delete workers as the
    settings count (10 each when the configuration sets nothing), in that
    order and whatever the state of the context; having started them it
    waits at its receive for as long as the context is not done, and returns
    nil at the first moment at which the context is done. It never returns
    before it has started the workers and the context is done. *)
Theorem C9_Run_starts_workers_and_waits (s : BatchRunnerSettings)
  (ctxDone : nat -> bool) :
  (forall fuel,
     Run s ctxDone (startMoments s + fuel)
     = if existsb ctxDone (seq (startMoments s) fuel)
       then (PcReturned, started s ++ [EvReturn None])
       else (PcWaitDone, started s))
  /\ (forall op, count (isGo op) (started s) = Z.to_nat (runnerCount s op))
  /\ (forall op, 0 <= runnerCount s op ->
                 Z.of_nat (count (isGo op) (started s)) = runnerCount s op)
  /\ (forall k, fst (Run s ctxDone k) = PcReturned ->
                exists t, (startMoments s <= t < k)%nat /\ ctxDone t = true)
  /\ (forall c, UnmarshalKey_blob
                  {| reader_runner_count := None;
                     writer_runner_count := None;
                     copy_runner_count := None;
                     delete_runner_count := None;
                     provideClient := c |}
                = defaultSettings).
Proof.
  repeat apply conj.
  - apply Run_after_start.
  - apply count_started.
  - intros op Hop. rewrite count_started. lia.
  - intros k Hk.
    destruct (Nat.lt_ge_cases k (startMoments s)) as [Hlt | Hge].
    + exfalso.
      pose proof (Run_reaches_wait s ctxDone) as Hwait.
      replace (startMoments s) with (k + (startMoments s - k))%nat in Hwait
        at 1 by lia.
      unfold Run in Hwait, Hk. rewrite Run_from_add, Hk in Hwait.
      rewrite Run_from_returned in Hwait. discriminate Hwait.
    + pose proof (Run_after_start s ctxDone (k - startMoments s)) as Hrun.
      replace (startMoments s + (k - startMoments s))%nat with k in Hrun
        by lia.
      rewrite Hrun in Hk.
      destruct (existsb ctxDone (seq (startMoments s) (k - startMoments s)))
        eqn:Hex; [ | discriminate Hk].
      apply existsb_exists in Hex as (t & Hin & Ht).
      apply in_seq in Hin. exists t. split; [lia | exact Ht].
  - reflexivity.
Qed.

Lemma C9_Run_starts_workers_and_waits_witness :
  Run defaultSettings (fun t => (50 <=? t)%nat) 54
  = (PcReturned, started defaultSettings ++ [EvReturn None])
  /\ Run defaultSettings (fun t => (50 <=? t)%nat) 50
     = (PcWaitDone, started defaultSettings)
  /\ Z.of_nat (count (isGo operationRead) (started defaultSettings)) = 10.
Proof.
  destruct (C9_Run_starts_workers_and_waits defaultSettings
              (fun t => (50 <=? t)%nat)) as (H1 & _ & H3 & _).
  split; [exact (H1 10%nat) | split; [exact (H1 6%nat) | ]].
  apply (H3 operationRead). cbn. lia.
Defined.

(** * Further properties of the runner *)

(** ** The shared runner *)

Lemma provideEach_built (r : batchRunner) (configs : list Config) :
  provideEach configs (Some r)
  = (map (fun _ => (Some r, None)) configs, Some r).
Proof.
  induction configs as [ | config configs IH]; cbn [provideEach map].
  - reflexivity.
  - cbn [ProvideBatchRunner]. now rewrite IH.
Qed.

(** X1: the runner is built once. Whatever configurations the module factory
    is applied to, the shared instance it leaves behind is the runner of the
    first configuration from which a runner can be constructed; a failed
    construction leaves no instance, so the next application tries again; and
    once there is an instance every application returns it without an
    error, whatever its configuration says. *)
Theorem X1_runner_built_once (configs : list Config) :
  snd (provideEach configs None) = head (omap constructed configs)
  /\ (forall r configs',
        fst (provideEach configs' (Some r))
        = map (fun _ => (Some r, None)) configs'
        /\ snd (provideEach configs' (Some r)) = Some r).
Proof.
  split.
  - induction configs as [ | config configs IH]; cbn [provideEach].
    + reflexivity.
    + change (omap constructed (config :: configs))
        with (match constructed config with
              | Some r => r :: omap constructed configs
              | None => omap constructed configs
              end).
      unfold ProvideBatchRunner, constructed at 1.
      destruct (NewBatchRunner config) as [r | err].
      * rewrite provideEach_built. reflexivity.
      * destruct (provideEach configs None) as [results instance].
        exact IH.
  - intros r configs'. now rewrite provideEach_built.
Qed.

(** ** The read worker, by its results *)

(** X2: what a producer can read off a read job. The existence flag is false
    exactly when the store reported the object absent; the error is nil
    exactly when the get succeeded or reported the object absent; and an
    error, when there is one, is the failure of the get and is never the
    absence of the object. *)
Theorem X2_read_results_tell_outcome (client : s3.Client) (o : Object)
  (w : metric.Writer) :
  let o' := object (process client operationRead o w) in
  let result := s3.GetObject client (getObjectInput o) in
  (Exists o' = false
   <-> exists err, result = inr err /\ isNotFound err = true)
  /\ (Error o' = None
      <-> (exists out, result = inl out)
          \/ (exists err, result = inr err /\ isNotFound err = true))
  /\ (forall err, Error o' = Some err ->
                  result = inr err /\ isNotFound err = false).
Proof.
  cbn zeta. pose proof (read_outcome client o w) as H. cbn zeta in H.
  destruct (s3.GetObject client (getObjectInput o)) as [out | err].
  - destruct H as (_ & Hex & Herr). rewrite Hex, Herr.
    repeat split; try discriminate; eauto.
    intros (err & Hr & _). discriminate Hr.
  - destruct H as [_ H]. destruct (isNotFound err) eqn:Hnf.
    + destruct H as [Hex Herr]. rewrite Hex, Herr.
      repeat split; try discriminate; eauto.
    + destruct H as [Hex Herr]. rewrite Hex, Herr. repeat split.
      * discriminate.
      * intros (err' & Hr & Hnf'). congruence.
      * discriminate.
      * intros [(out & Hr) | (err' & Hr & Hnf')]; congruence.
      * congruence.
      * congruence.
Qed.

(** ** The delete worker *)

(** X3: the delete worker passes on what the store reports and nothing else.
    When the delete fails the job gets that error; when it succeeds the error
    field keeps what it held. The worker writes no other field of the job:
    existence flag and body are what the producer left, and apart from the
    error only the wait group changes, by its release. *)
Theorem X3_delete_passes_error_through (client : s3.Client) (o : Object)
  (w : metric.Writer) :
  let st := process client operationDelete o w in
  Exists (object st) = Exists o
  /\ Body (object st) = Body o
  /\ match s3.DeleteObject client (deleteObjectInput o) with
     | Some err =>
         object st = set_wg_Done (set_Error (Some err) o)
         /\ trace st = [EvReceive operationDelete; EvCall operationDelete;
                        EvSet FieldError; EvMetric operationDelete; EvDone]
     | None =>
         object st = set_wg_Done o
         /\ trace st = [EvReceive operationDelete; EvCall operationDelete;
                        EvMetric operationDelete; EvDone]
     end.
Proof.
  run_case.
  destruct (s3.DeleteObject client (deleteObjectInput o)) as [err | ]; cbn;
    repeat split; reflexivity.
Qed.

(** ** All four workers *)

(** X4: no worker retries. Whatever the store answers, a job leads to exactly
    one call of the store client, and that call is the one of the kind of
    the worker. *)
Theorem X4_one_store_call_per_job (client : s3.Client) (op : Operation)
  (o : Object) (w : metric.Writer) :
  let tr := trace (process client op o w) in
  count isAnyCall tr = 1%nat /\ count (isCall op) tr = 1%nat.
Proof.
  cbn zeta. split;
    destruct op; run_case; case_results client; reflexivity.
Qed.

(** X5: only the write worker closes a body, and it closes the body of a job
    exactly once, after the call of the store and before the metric and the
    release, whether the put or the close fails or not. *)
Theorem X5_body_closed_once (client : s3.Client) (op : Operation)
  (o : Object) (w : metric.Writer) :
  let tr := trace (process client op o w) in
  match op with
  | operationWrite =>
      count isClose tr = 1%nat
      /\ tr = beforeClose tr ++ EvClose :: afterClose tr
      /\ In (EvCall operationWrite) (beforeClose tr)
      /\ ~ In (EvMetric operationWrite) (beforeClose tr)
      /\ In (EvMetric operationWrite) (afterClose tr)
      /\ In EvDone (afterClose tr)
  | _ => count isClose tr = 0%nat
  end.
Proof.
  cbn zeta. destruct op; run_case; case_results client; cbn;
    try reflexivity;
    (repeat split; auto 10);
    intros H; repeat (destruct H as [H | H]; [discriminate H | ]); exact H.
Qed.

(** X6: no worker rewrites the request. Bucket, key parts, source, access
    control and content settings of a job are after the iteration what the
    producer put in; only the read worker writes the body; the copy and the
    delete worker do not write the existence flag. *)
Theorem X6_request_fields_kept (client : s3.Client) (op : Operation)
  (o : Object) (w : metric.Writer) :
  let o' := object (process client op o w) in
  sameRequest o o'
  /\ match op with
     | operationRead => True
     | operationWrite => Body o' = Body o
     | _ => Body o' = Body o /\ Exists o' = Exists o
     end.
Proof.
  cbn zeta. unfold sameRequest.
  destruct op; run_case; case_results client; cbn; auto 20.
Qed.

(** ** The pools *)

(** What a job becomes does not depend on the metric writer, hence not on
    the jobs processed before it. *)
Lemma process_object_writer (client : s3.Client) (op : Operation)
  (o : Object) (w w' : metric.Writer) :
  object (process client op o w) = object (process client op o w').
Proof.
  destruct op; run_case; case_results client; reflexivity.
Qed.

(** A worker does what it does on the jobs it receives before it selects
    the shutdown. *)
Lemma worker_receivedBeforeDone (client : s3.Client) (op : Operation)
  (sels : list Selected) :
  forall w0, worker client op sels w0
             = worker client op (map SelectReceive (receivedBeforeDone sels)) w0.
Proof.
  induction sels as [ | [ | o] sels IH]; intros w0;
    cbn [worker receivedBeforeDone map]; auto.
Qed.

Lemma hasOperation_datum (op op' : Operation) (v : Q) :
  hasOperation op' (datum (operation_string op) v) = Operation_eqb op op'.
Proof. destruct op, op'; vm_compute; reflexivity. Qed.

Lemma count_replicate {A} (p : A -> bool) (x : A) (n : nat) :
  count p (replicate n x) = if p x then n else 0%nat.
Proof.
  unfold count. induction n as [ | n IH]; cbn [replicate List.filter].
  - now destruct (p x).
  - destruct (p x); cbn [length]; [now rewrite IH | exact IH].
Qed.

(** X7: a pool hands back every job it receives. When the workers of one
    kind receive [jobs] one after the other, every job is released exactly
    once (the counter of its wait group is one lower than before), and one
    datum of value 1 and of the kind of the pool has been written per job. *)
Theorem X7_pool_releases_every_job (client : s3.Client) (op : Operation)
  (jobs : list Object) (w0 : World) :
  let w' := worker client op (map SelectReceive jobs) w0 in
  map wg (finished w') = map wg (finished w0) ++ map (fun o => wg o - 1) jobs
  /\ length (finished w') = (length (finished w0) + length jobs)%nat
  /\ metric.written (metricWriter w')
     = metric.written (metricWriter w0)
       ++ replicate (length jobs) (datum (operation_string op) 1%Q)
  /\ count isDone (events w') = (count isDone (events w0) + length jobs)%nat.
Proof.
  cbn zeta.
  destruct (worker_releases_every_job client op jobs w0)
    as (Hwg & Hwr & Hdone & _).
  repeat split; auto.
  apply (f_equal (@length Z)) in Hwg.
  rewrite length_app, !length_map in Hwg. exact Hwg.
Qed.

(** X8: the shutdown is not a drain. Once a worker has selected the shutdown
    of the context it returns, and the jobs it would have received after
    that are left as they are: they are not handed back, not released, and
    no metric is written for them. *)
Theorem X8_shutdown_abandons_queue (client : s3.Client) (op : Operation)
  (jobs rest : list Object) (later : list Selected) (w0 : World) :
  worker client op (map SelectReceive jobs ++ SelectDone :: later) w0
  = worker client op (map SelectReceive jobs) w0
  /\ length (finished
       (worker client op
          (map SelectReceive jobs ++ SelectDone :: map SelectReceive rest) w0))
     = (length (finished w0) + length jobs)%nat
  /\ count isDone (events
       (worker client op
          (map SelectReceive jobs ++ SelectDone :: map SelectReceive rest) w0))
     = (count isDone (events w0) + length jobs)%nat.
Proof.
  assert (Hcut : forall sels w,
    worker client op (map SelectReceive jobs ++ SelectDone :: sels) w
    = worker client op (map SelectReceive jobs) w).
  { intros sels. induction jobs as [ | o jobs IH]; intros w;
      cbn [map app worker]; auto. }
  split; [apply Hcut | ]. rewrite Hcut.
  destruct (worker_releases_every_job client op jobs w0)
    as (Hwg & _ & Hdone & _).
  split; [ | exact Hdone].
  apply (f_equal (@length Z)) in Hwg.
  rewrite length_app, !length_map in Hwg. exact Hwg.
Qed.

(** X9: failures stay with their job. The jobs a pool hands back are, in the
    order received, what each job becomes when it is processed on its own:
    the outcome of a job depends on that job and on the store, not on the
    jobs before it nor on how they ended. *)
Theorem X9_jobs_are_independent (client : s3.Client) (op : Operation)
  (jobs : list Object) (w0 : World) :
  finished (worker client op (map SelectReceive jobs) w0)
  = finished w0
    ++ map (fun o => object (process client op o emptyWriter)) jobs.
Proof.
  revert w0. induction jobs as [ | o jobs IH]; intros w0; cbn [map worker].
  - now rewrite app_nil_r.
  - rewrite IH. unfold iteration. cbn [finished].
    rewrite <- app_assoc. cbn [app].
    now rewrite (process_object_writer client op o (metricWriter w0) emptyWriter).
Qed.

(** X10: the data written count the jobs by kind. After a pool of kind [op]
    has processed [jobs], the number of written data tagged with a kind has
    grown by the number of jobs when it is the kind of the pool, and has not
    changed when it is another kind. *)
Theorem X10_written_data_count_jobs (client : s3.Client) (op op' : Operation)
  (jobs : list Object) (w0 : World) :
  count (hasOperation op')
    (metric.written
       (metricWriter (worker client op (map SelectReceive jobs) w0)))
  = (count (hasOperation op') (metric.written (metricWriter w0))
     + if Operation_eqb op op' then length jobs else 0)%nat.
Proof.
  destruct (worker_releases_every_job client op jobs w0) as (_ & Hwr & _).
  rewrite Hwr, count_app, count_replicate, hasOperation_datum. reflexivity.
Qed.

(** ** Run, at its edges *)

(** [Run] only ever adds to its trace. *)
Lemma Run_from_extends (s : BatchRunnerSettings) (ctxDone : nat -> bool)
  (fuel : nat) :
  forall t pc tr,
    exists evs, snd (Run_from s ctxDone fuel t pc tr) = tr ++ evs.
Proof.
  induction fuel as [ | fuel IH]; intros t pc tr; cbn [Run_from].
  - exists []. cbn. now rewrite app_nil_r.
  - destruct (Run_step s (ctxDone t) pc) as [[pc' evs] | ].
    + destruct (IH (S t) pc' (tr ++ evs)) as [evs' ->].
      exists (evs ++ evs'). now rewrite app_assoc.
    + apply IH.
Qed.

(** X11: the size of a pool is bounded by its count. At no moment has [Run]
    started more workers of a kind than the settings count for it; for a
    count of zero, or a negative one, it starts none at all. *)
Theorem X11_never_more_workers_than_counted (s : BatchRunnerSettings)
  (ctxDone : nat -> bool) (op : Operation) (fuel : nat) :
  (count (isGo op) (snd (Run s ctxDone fuel)) <= Z.to_nat (runnerCount s op))%nat
  /\ (runnerCount s op <= 0 ->
      count (isGo op) (snd (Run s ctxDone fuel)) = 0%nat).
Proof.
  assert (Hle : (count (isGo op) (snd (Run s ctxDone fuel))
                 <= Z.to_nat (runnerCount s op))%nat).
  { rewrite <- count_started.
    destruct (Nat.le_ge_cases fuel (startMoments s)) as [Hle | Hge].
    - pose proof (Run_reaches_wait s ctxDone) as Hwait.
      replace (startMoments s) with (fuel + (startMoments s - fuel))%nat
        in Hwait at 1 by lia.
      unfold Run in Hwait |- *. rewrite Run_from_add in Hwait.
      destruct (Run_from_extends s ctxDone (startMoments s - fuel) (0 + fuel)
                  (fst (Run_from s ctxDone fuel 0 (PcFor operationRead 0) []))
                  (snd (Run_from s ctxDone fuel 0 (PcFor operationRead 0) [])))
        as [evs Hevs].
      rewrite Hwait in Hevs. cbn [snd] in Hevs.
      rewrite Hevs, count_app. lia.
    - pose proof (Run_after_start s ctxDone (fuel - startMoments s)) as Hrun.
      replace (startMoments s + (fuel - startMoments s))%nat with fuel
        in Hrun by lia.
      rewrite Hrun.
      destruct (existsb ctxDone _); cbn [snd]; [ | lia].
      rewrite count_app. cbn. lia. }
  split; [exact Hle | intros Hzero; lia].
Qed.

Lemma X11_never_more_workers_than_counted_witness :
  count (isGo operationDelete)
    (snd (Run (UnmarshalKey_blob sampleConfig) (fun _ => false) 40)) = 0%nat.
Proof.
  apply (X11_never_more_workers_than_counted
           (UnmarshalKey_blob sampleConfig) (fun _ => false)
           operationDelete 40).
  cbn. lia.
Defined.

(** X12: a context that is already done does not keep [Run] from starting
    the workers. When the context is done at every moment, [Run] still takes
    all its moments to start the workers of all four kinds, is at its receive
    right after, and returns nil at the very next moment. *)
Theorem X12_cancelled_context_still_starts_workers (s : BatchRunnerSettings)
  (fuel : nat) :
  Run s (fun _ => true) (startMoments s) = (PcWaitDone, started s)
  /\ Run s (fun _ => true) (startMoments s + S fuel)
     = (PcReturned, started s ++ [EvReturn None]).
Proof.
  split.
  - apply Run_reaches_wait.
  - rewrite Run_after_start. reflexivity.
Qed.

(** * Properties of the configurable stream inputs *)

(** ** Creating an input *)

(** With a factory for the type of the input, [NewConfigurableInput] is what
    it makes of the result of the factory. *)
Lemma NewConfigurableInput_found {T : stream.Types}
  (factories : gmap string stream.InputFactory) (config : stream.Config)
  (name : string) (factory : stream.InputFactory) :
  factories !! stream.readInputType config name = Some factory ->
  stream.NewConfigurableInput factories config name
  = created (factory config name).
Proof.
  intros Hf. unfold stream.NewConfigurableInput, created. cbn zeta.
  unfold stream.InputFactory, stream.Result in *. rewrite Hf.
  destruct (factory config name) as [input [cause | ]]; reflexivity.
Qed.

Lemma NewConfigurableInput_missing {T : stream.Types}
  (factories : gmap string stream.InputFactory) (config : stream.Config)
  (name : string) :
  factories !! stream.readInputType config name = None ->
  stream.NewConfigurableInput factories config name
  = (None, Some (ErrorString
                   ("invalid input " +:+ name +:+ " of type "
                    +:+ stream.readInputType config name))).
Proof.
  intros Hf. unfold stream.NewConfigurableInput. cbn zeta.
  unfold stream.InputFactory, stream.Result in *. now rewrite Hf.
Qed.

(** The types with a factory from the start are the six input types. *)
Lemma inputFactories_types {T : stream.Types} {C : stream.Constructors}
  (t : string) :
  is_Some (stream.inputFactories !! t) <-> In t inputTypes.
Proof.
  unfold stream.inputFactories, inputTypes.
  rewrite !lookup_insert_is_Some'. cbn [In]. split.
  - intros Hs. repeat (destruct Hs as [Hs | Hs]; [auto 10 | ]).
    rewrite lookup_empty in Hs. destruct Hs as [factory Hs]. discriminate Hs.
  - intros Hin. repeat (destruct Hin as [Hin | Hin]; [auto 10 | ]).
    destruct Hin.
Qed.

(** X13: out of the box the package creates exactly the inputs of type
    file, inMemory, kinesis, redis, sns and sqs. For an input whose
    configured type is none of these, [NewConfigurableInput] returns no input
    and an error that names the input and its type; for an input of one of
    the six types it runs the factory of that type and returns what it makes
    of its result. *)
Theorem X13_six_input_types {T : stream.Types} {C : stream.Constructors}
  (config : stream.Config) (name : string) :
  let t := stream.readInputType config name in
  (~ In t inputTypes ->
   stream.NewConfigurableInput stream.inputFactories config name
   = (None, Some (ErrorString
                    ("invalid input " +:+ name +:+ " of type " +:+ t))))
  /\ (In t inputTypes ->
      exists factory,
        stream.inputFactories !! t = Some factory
        /\ stream.NewConfigurableInput stream.inputFactories config name
           = created (factory config name)).
Proof.
  cbn zeta. split.
  - intros Hnot. apply NewConfigurableInput_missing.
    destruct (stream.inputFactories !! stream.readInputType config name)
      eqn:Hf; [ | reflexivity].
    exfalso. apply Hnot, inputFactories_types. now rewrite Hf.
  - intros Hin. apply inputFactories_types in Hin as [factory Hf].
    exists factory. split; [exact Hf | ].
    now apply NewConfigurableInput_found.
Qed.

Lemma X13_six_input_types_witness :
  @stream.NewConfigurableInput sampleTypes
    (@stream.inputFactories sampleTypes sampleConstructors)
    sampleStreamConfig "events"
  = (None, Some (ErrorString "invalid input events of type kafka"))
  /\ exists factory,
       @stream.NewConfigurableInput sampleTypes
         (@stream.inputFactories sampleTypes sampleConstructors)
         sampleStreamConfig "orders"
       = @created sampleTypes (factory sampleStreamConfig "orders").
Proof.
  split.
  - apply (@X13_six_input_types sampleTypes sampleConstructors
             sampleStreamConfig "events").
    cbn. intros Hin.
    repeat (destruct Hin as [Hin | Hin]; [discriminate Hin | ]). exact Hin.
  - destruct (@X13_six_input_types sampleTypes sampleConstructors
                sampleStreamConfig "orders") as [_ Hsome].
    destruct Hsome as (factory & _ & Hnew).
    + cbn. auto 10.
    + exists factory. exact Hnew.
Defined.

(** X14: [SetInputFactory] decides which factory creates the inputs of its
    type, and of no other type. After a factory has been set for a type,
    inputs configured with that type are created by it, whether the type had
    a factory before or not; inputs of any other type are created as before;
    and of two factories set for the same type the later one counts. *)
Theorem X14_SetInputFactory_takes_over_type {T : stream.Types}
  (factories : gmap string stream.InputFactory) (typ : string)
  (factory : stream.InputFactory) (config : stream.Config) (name : string) :
  (stream.readInputType config name = typ ->
   stream.NewConfigurableInput
     (stream.SetInputFactory typ factory factories) config name
   = created (factory config name))
  /\ (stream.readInputType config name <> typ ->
      stream.NewConfigurableInput
        (stream.SetInputFactory typ factory factories) config name
      = stream.NewConfigurableInput factories config name)
  /\ (forall factory',
        stream.SetInputFactory typ factory'
          (stream.SetInputFactory typ factory factories)
        = stream.SetInputFactory typ factory' factories).
Proof.
  unfold stream.SetInputFactory. repeat split.
  - intros Ht. apply NewConfigurableInput_found.
    rewrite Ht. apply lookup_insert_eq.
  - intros Ht. unfold stream.NewConfigurableInput. cbn zeta.
    unfold stream.InputFactory, stream.Result in *.
    now rewrite lookup_insert_ne by congruence.
  - intros factory'. apply insert_insert_eq.
Qed.

Lemma X14_SetInputFactory_takes_over_type_witness :
  @stream.NewConfigurableInput sampleTypes
    (stream.SetInputFactory "kafka"
       kafkaFactory
       (@stream.inputFactories sampleTypes sampleConstructors))
    sampleStreamConfig "events"
  = (Some "kafka:events", None)
  /\ @stream.NewConfigurableInput sampleTypes
       (stream.SetInputFactory "kafka"
          kafkaFactory
          (@stream.inputFactories sampleTypes sampleConstructors))
       sampleStreamConfig "orders"
     = (Some "sqs:orders-queue", None).
Proof.
  destruct (@X14_SetInputFactory_takes_over_type sampleTypes
              (@stream.inputFactories sampleTypes sampleConstructors) "kafka"
              kafkaFactory
              sampleStreamConfig "events") as (Hset & _ & _).
  destruct (@X14_SetInputFactory_takes_over_type sampleTypes
              (@stream.inputFactories sampleTypes sampleConstructors) "kafka"
              kafkaFactory
              sampleStreamConfig "orders") as (_ & Hother & _).
  split.
  - exact (Hset eq_refl).
  - rewrite Hother by discriminate. vm_compute. reflexivity.
Defined.


(** ** Providing an input *)

Lemma NewConfigurableInput_error_no_input {T : stream.Types}
  (factories : gmap string stream.InputFactory) (config : stream.Config)
  (name : string) (err : error) :
  snd (stream.NewConfigurableInput factories config name) = Some err ->
  fst (stream.NewConfigurableInput factories config name) = None.
Proof.
  unfold stream.NewConfigurableInput. cbn zeta.
  destruct (_ !! _) as [factory | ]; [ | reflexivity].
  destruct (factory config name) as [input [cause | ]]; cbn; congruence.
Qed.

(** X16: an input is provided once per name. After [ProvideConfigurableInput]
    has been called for a name, with whatever outcome, every further call
    for that name returns the input of the first call without an error and
    leaves the inputs as they are, whatever factories are registered and
    whatever the configuration says by then. Inputs provided under other
    names are not touched. *)
Theorem X16_input_provided_once {T : stream.Types}
  (factories : gmap string stream.InputFactory) (config : stream.Config)
  (name : string) (inputs : gmap string (option stream.Input)) :
  let result := fst (stream.ProvideConfigurableInput factories config name inputs) in
  let inputs' := snd (stream.ProvideConfigurableInput factories config name inputs) in
  (forall factories' config',
     stream.ProvideConfigurableInput factories' config' name inputs'
     = ((fst result, None), inputs'))
  /\ (forall name', name' <> name -> inputs' !! name' = inputs !! name')
  /\ is_Some (inputs' !! name).
Proof.
  cbn zeta. unfold stream.ProvideConfigurableInput.
  destruct (inputs !! name) as [input | ] eqn:Hin.
  - cbn [fst snd]. rewrite Hin. repeat split; eauto.
  - pose proof (NewConfigurableInput_error_no_input factories config name)
      as Hnone.
    destruct (stream.NewConfigurableInput factories config name)
      as [input [err | ]]; cbn [fst snd] in *.
    + rewrite (Hnone err eq_refl). repeat split.
      * intros factories' config'. now rewrite lookup_insert_eq.
      * intros name' Hne. now rewrite lookup_insert_ne.
      * rewrite lookup_insert_eq. eauto.
    + repeat split.
      * intros factories' config'. now rewrite !lookup_insert_eq.
      * intros name' Hne. now rewrite lookup_insert_ne.
      * rewrite lookup_insert_eq. eauto.
Qed.

(** X17: a failed creation is remembered as an input. When no input is
    known under a name and creating it fails, [ProvideConfigurableInput]
    returns the error, but it has stored the nil input under the name: the
    next call for that name returns the nil input and no error, and does not
    try to create the input again. *)
Theorem X17_failure_then_nil_without_error {T : stream.Types}
  (factories : gmap string stream.InputFactory) (config : stream.Config)
  (name : string) (inputs : gmap string (option stream.Input)) (err : error) :
  inputs !! name = None ->
  snd (stream.NewConfigurableInput factories config name) = Some err ->
  stream.ProvideConfigurableInput factories config name inputs
  = ((None, Some err), <[name := None]> inputs)
  /\ (forall factories' config',
        stream.ProvideConfigurableInput factories' config' name
          (<[name := None]> inputs)
        = ((None, None), <[name := None]> inputs)).
Proof.
  intros Hin Herr.
  pose proof (NewConfigurableInput_error_no_input factories config name err Herr)
    as Hnone.
  unfold stream.ProvideConfigurableInput. rewrite Hin.
  destruct (stream.NewConfigurableInput factories config name)
    as [input [err' | ]]; cbn [fst snd] in *; [ | discriminate Herr].
  injection Herr as ->. subst input. split; [reflexivity | ].
  intros factories' config'. now rewrite lookup_insert_eq.
Qed.

Lemma X17_failure_then_nil_without_error_witness :
  let first :=
    @stream.ProvideConfigurableInput sampleTypes
      (@stream.inputFactories sampleTypes sampleConstructors)
      sampleStreamConfig "cache" ∅ in
  fst first
  = (None, Some (Wrapped "failed to create input: "
                   (ErrorString "redis: no key")))
  /\ fst (@stream.ProvideConfigurableInput sampleTypes
            (@stream.inputFactories sampleTypes sampleConstructors)
            sampleStreamConfig "cache" (snd first))
     = (None, None).
Proof.
  cbn zeta.
  destruct (@X17_failure_then_nil_without_error sampleTypes
              (@stream.inputFactories sampleTypes sampleConstructors)
              sampleStreamConfig "cache" ∅
              (Wrapped "failed to create input: " (ErrorString "redis: no key")))
    as [Hfirst Hsecond].
  - apply lookup_empty.
  - vm_compute. reflexivity.
  - rewrite Hfirst. cbn [fst snd]. split; [reflexivity | ].
    now rewrite Hsecond.
Defined.

(** ** Reading the settings *)

(** X18: an sqs or sns input always gets a client name. The client name of
    the settings read for an input is the configured one when one is
    configured, and [stream-input-] followed by the name of the input
    otherwise; it is never empty. *)
Theorem X18_client_name_never_empty {T : stream.Types}
  (config : stream.Config) (name : string) :
  let sqsName :=
    stream.sqs_ClientName
      (stream.UnmarshalKey_sqs config (stream.ConfigurableInputKey name)
         stream.sqsInputConfiguration_zero) in
  let snsName :=
    stream.sns_ClientName
      (stream.UnmarshalKey_sns config (stream.ConfigurableInputKey name)
         stream.SnsInputConfiguration_zero) in
  let sqsSettings := stream.readSqsInputSettings config name in
  let snsSettings := fst (stream.readSnsInputSettings config name) in
  stream.qs_ClientName sqsSettings <> ""
  /\ stream.ss_ClientName snsSettings <> ""
  /\ (sqsName <> "" -> stream.qs_ClientName sqsSettings = sqsName)
  /\ (snsName <> "" -> stream.ss_ClientName snsSettings = snsName)
  /\ (sqsName = "" ->
      stream.qs_ClientName sqsSettings = "stream-input-" +:+ name)
  /\ (snsName = "" ->
      stream.ss_ClientName snsSettings = "stream-input-" +:+ name).
Proof.
  cbn zeta. unfold stream.readSqsInputSettings, stream.readSnsInputSettings.
  cbn [fst stream.qs_ClientName stream.ss_ClientName].
  destruct (String.eqb_spec
              (stream.sqs_ClientName
                 (stream.UnmarshalKey_sqs config
                    (stream.ConfigurableInputKey name)
                    stream.sqsInputConfiguration_zero)) "") as [Hq | Hq];
    destruct (String.eqb_spec
                (stream.sns_ClientName
                   (stream.UnmarshalKey_sns config
                      (stream.ConfigurableInputKey name)
                      stream.SnsInputConfiguration_zero)) "") as [Hs | Hs];
    repeat split; try congruence; try discriminate.
Qed.

Lemma X18_client_name_never_empty_witness :
  stream.qs_ClientName
    (@stream.readSqsInputSettings sampleTypes sampleStreamConfig "orders")
  = "stream-input-orders".
Proof.
  destruct (@X18_client_name_never_empty sampleTypes sampleStreamConfig
              "orders") as (_ & _ & _ & _ & Hdefault & _).
  apply Hdefault. reflexivity.
Defined.

(** ** Keys and types *)

Lemma foldr_insert_lookup {A} (f : string -> A) (names : list string)
  (name : string) :
  foldr (fun name m => <[name := f name]> m) (∅ : gmap string A) names !! name
  = if decide (name ∈ names) then Some (f name) else None.
Proof.
  induction names as [ | n names IH]; cbn [foldr].
  - rewrite lookup_empty.
    destruct (decide (name ∈ [])) as [Hin | ]; [ | reflexivity].
    now apply elem_of_nil in Hin.
  - destruct (decide (n = name)) as [-> | Hne].
    + rewrite lookup_insert_eq.
      destruct (decide (name ∈ name :: names)) as [ | Hn];
        [reflexivity | exfalso; apply Hn; now left].
    + rewrite lookup_insert_ne, IH by exact Hne.
      destruct (decide (name ∈ names)) as [Hin | Hin];
        destruct (decide (name ∈ n :: names)) as [Hin' | Hin'];
        try reflexivity.
      * exfalso. apply Hin'. now right.
      * exfalso. apply elem_of_cons in Hin' as [-> | Hin'];
          [now apply Hne | now apply Hin].
Qed.

(** X19: [readAllInputTypes] lists exactly the inputs of the configuration.
    Its result has an entry for a name exactly when the map under
    [stream.input] has one, and the entry is the type read for that name,
    from the key [stream.input.<name>.type]; the keys of two inputs with
    different names differ. *)
Theorem X19_all_input_types {T : stream.Types} (config : stream.Config)
  (name : string) :
  stream.readAllInputTypes config !! name
  = (fun _ => stream.readInputType config name)
    <$> (stream.GetStringMap config "stream.input" ∅ !! name)
  /\ stream.readInputType config name
     = stream.GetString config ("stream.input." +:+ name +:+ ".type")
  /\ (forall name',
        stream.ConfigurableInputKey name = stream.ConfigurableInputKey name' ->
        name = name').
Proof.
  repeat split.
  - unfold stream.readAllInputTypes. cbn zeta. rewrite foldr_insert_lookup.
    set (m := stream.GetStringMap config "stream.input" ∅).
    destruct (decide (name ∈ map fst (map_to_list m))) as [Hin | Hin].
    + apply list_elem_of_In, in_map_iff in Hin as ([n v] & Hn & Hin).
      cbn in Hn. subst n.
      apply list_elem_of_In, elem_of_map_to_list in Hin.
      now rewrite Hin.
    + destruct (m !! name) as [v | ] eqn:Hm; [ | reflexivity].
      exfalso. apply Hin, list_elem_of_In, in_map_iff. exists (name, v).
      split; [reflexivity | ].
      now apply list_elem_of_In, elem_of_map_to_list.
  - intros name' Heq. unfold stream.ConfigurableInputKey in Heq.
    cbn in Heq. now injection Heq.
Qed.

(** X20: inputs of type file and inMemory can always be created. With the
    factories the package starts with, [NewConfigurableInput] returns an
    input and no error for every input whose configured type is file or
    inMemory, whatever else the configuration holds. *)
Theorem X20_file_and_memory_never_fail {T : stream.Types}
  {C : stream.Constructors} (config : stream.Config) (name : string) :
  stream.readInputType config name = stream.InputTypeFile
  \/ stream.readInputType config name = stream.InputTypeInMemory ->
  exists input,
    stream.NewConfigurableInput stream.inputFactories config name
    = (Some input, None).
Proof.
  intros [Ht | Ht].
  - eexists.
    rewrite (NewConfigurableInput_found _ _ _ stream.newFileInputFromConfig).
    + reflexivity.
    + rewrite Ht. apply lookup_insert_eq.
  - eexists.
    rewrite (NewConfigurableInput_found _ _ _ stream.newInMemoryInputFromConfig).
    + reflexivity.
    + rewrite Ht. unfold stream.inputFactories.
      rewrite lookup_insert_ne by discriminate. apply lookup_insert_eq.
Qed.

Lemma X20_file_and_memory_never_fail_witness :
  exists input,
    @stream.NewConfigurableInput sampleTypes
      (@stream.inputFactories sampleTypes sampleConstructors)
      sampleStreamConfig "dump"
    = (Some input, None).
Proof.
  apply (@X20_file_and_memory_never_fail sampleTypes sampleConstructors
           sampleStreamConfig "dump").
  left. reflexivity.
Defined.

(** * Properties of the slices through reflection *)

Lemma copyElements_map (elems : list refl.value) :
  refl.copyElements elems = map refl.Interface_ elems.
Proof.
  induction elems as [ | v elems IH]; cbn; [reflexivity | now rewrite IH].
Qed.

(** X21: [InterfaceToInterfaceSlice] hands back the elements of a slice, and
    of a slice behind a pointer, one for one. Given a slice of any element
    type, or a pointer to one, it returns no error and a slice of the same
    length that holds at every index the element of the input at that
    index, as an [any]. *)
Theorem X21_slice_elements_kept (i : refl.any) (elems : list refl.value) :
  refl.sliceBehind i = Some elems ->
  refl.InterfaceToInterfaceSlice i = (map refl.Interface_ elems, None)
  /\ length (fst (refl.InterfaceToInterfaceSlice i)) = length elems
  /\ (forall k v, elems !! k = Some v ->
                  fst (refl.InterfaceToInterfaceSlice i) !! k
                  = Some (refl.Interface_ v)).
Proof.
  intros Hs.
  assert (Hres : refl.InterfaceToInterfaceSlice i
                 = (map refl.Interface_ elems, None)).
  { destruct i as [[n | s | b | d | t [[n | s | b | d | t' tg | t' es] | ]
                   | t es] | ]; try discriminate Hs.
    - injection Hs as <-. cbn. now rewrite copyElements_map.
    - injection Hs as <-. destruct t; cbn; now rewrite copyElements_map. }
  rewrite Hres. cbn [fst]. repeat split.
  - apply length_map.
  - intros k v Hk. change (map refl.Interface_ elems)
      with (refl.Interface_ <$> elems).
    now rewrite list_lookup_fmap, Hk.
Qed.

Lemma X21_slice_elements_kept_witness :
  refl.InterfaceToInterfaceSlice
    (Some (refl.VPtr (refl.TSlice refl.TInt) (Some refl.sampleInts)))
  = ([Some (refl.VInt 1); Some (refl.VInt 2); Some (refl.VInt 3)], None).
Proof.
  apply (X21_slice_elements_kept
           (Some (refl.VPtr (refl.TSlice refl.TInt) (Some refl.sampleInts)))
           [refl.VInt 1; refl.VInt 2; refl.VInt 3]).
  reflexivity.
Defined.

(** X22: [InterfaceToInterfaceSlice] rejects everything else with an error,
    without a panic: nil, a value that is not a slice, a nil pointer, a
    pointer to something that is not a slice, a pointer to a pointer to a
    slice. The error names the type of the input, and the slice returned
    with it is empty. *)
Theorem X22_not_a_slice_is_an_error (i : refl.any) :
  refl.sliceBehind i = None ->
  refl.InterfaceToInterfaceSlice i
  = ([], Some (ErrorString ("input is not an slice but instead of type "
                            +:+ refl.dynamicTypeString i))).
Proof.
  intros Hs.
  destruct i as [[n | s | b | d | t [[n | s | b | d | t' tg | t' es] | ]
                 | t es] | ]; try discriminate Hs; reflexivity.
Qed.

Lemma X22_not_a_slice_is_an_error_witness :
  refl.InterfaceToInterfaceSlice
    (Some (refl.VPtr (refl.TPtr (refl.TSlice refl.TInt))
             (Some (refl.VPtr (refl.TSlice refl.TInt) (Some refl.sampleInts)))))
  = ([], Some (ErrorString "input is not an slice but instead of type **[]int"))
  /\ refl.InterfaceToInterfaceSlice None
     = ([], Some (ErrorString "input is not an slice but instead of type <nil>")).
Proof.
  split.
  - apply (X22_not_a_slice_is_an_error
             (Some (refl.VPtr (refl.TPtr (refl.TSlice refl.TInt))
                      (Some (refl.VPtr (refl.TSlice refl.TInt)
                               (Some refl.sampleInts)))))).
    reflexivity.
  - apply (X22_not_a_slice_is_an_error None). reflexivity.
Defined.

(** ** The iterator *)

(** The iterator over [pre ++ suf] that stands at the first element of
    [suf] yields the elements of [suf] and ends at the end of the slice. *)
Lemma drain_suffix (suf : list refl.value) :
  forall (pre : list refl.value) (out : list refl.any) (fuel : nat),
    (length suf <= fuel)%nat ->
    refl.drain fuel
      {| refl.current := Z.of_nat (length pre);
         refl.length_ := Z.of_nat (length (pre ++ suf));
         refl.slice := pre ++ suf |} out
    = Some (out ++ map refl.Interface_ suf,
            {| refl.current := Z.of_nat (length (pre ++ suf));
               refl.length_ := Z.of_nat (length (pre ++ suf));
               refl.slice := pre ++ suf |}).
Proof.
  induction suf as [ | v suf IH]; intros pre out fuel Hfuel.
  - rewrite !app_nil_r. destruct fuel as [ | fuel]; cbn [refl.drain].
    + reflexivity.
    + unfold refl.Next. cbn [refl.current refl.length_].
      now rewrite Z.ltb_irrefl.
  - destruct fuel as [ | fuel]; [cbn in Hfuel; lia | ].
    cbn [refl.drain]. unfold refl.Next, refl.Val.
    cbn [refl.current refl.length_ refl.slice].
    rewrite length_app. cbn [length].
    replace (Z.of_nat (length pre) <? Z.of_nat (length pre + S (length suf)))
      with true by (symmetry; apply Z.ltb_lt; lia).
    replace (0 <=? Z.of_nat (length pre)) with true
      by (symmetry; apply Z.leb_le; lia).
    cbn [andb]. rewrite Nat2Z.id.
    rewrite lookup_app_r by lia. rewrite Nat.sub_diag. cbn [lookup list_lookup].
    replace (Z.of_nat (length pre) + 1) with (Z.of_nat (length (pre ++ [v])))
      by (rewrite length_app; cbn; lia).
    replace (pre ++ v :: suf) with ((pre ++ [v]) ++ suf)
      by (now rewrite <- app_assoc).
    replace (length pre + S (length suf))%nat
      with (length ((pre ++ [v]) ++ suf))
      by (rewrite !length_app; cbn; lia).
    rewrite IH by (cbn in Hfuel; lia).
    cbn [map]. now rewrite <- app_assoc.
Qed.

(** X23: the iterator visits every element once, in order. Calling [Val]
    for as long as [Next] says so, from a fresh iterator over a slice,
    yields the elements of the slice from first to last and then stops,
    without a panic; [Len] is the length of the slice before and after. At
    the end [Next] is false, and a [Val] called all the same panics. *)
Theorem X23_iterator_visits_all (sv : list refl.value) (fuel : nat) :
  (length sv <= fuel)%nat ->
  exists it,
    refl.drain fuel (refl.SliceInterfaceIterator sv) []
    = Some (map refl.Interface_ sv, it)
    /\ refl.Next it = false
    /\ refl.Val it = None
    /\ refl.Len it = Z.of_nat (length sv)
    /\ refl.Len (refl.SliceInterfaceIterator sv) = Z.of_nat (length sv).
Proof.
  intros Hfuel. eexists. split.
  - apply (drain_suffix sv [] [] fuel Hfuel).
  - cbn [app length]. unfold refl.Next, refl.Val, refl.Len.
    cbn [refl.current refl.length_ refl.slice].
    rewrite Z.ltb_irrefl, andb_false_r. auto.
Qed.

Lemma X23_iterator_visits_all_witness :
  exists it,
    refl.drain 5 (refl.SliceInterfaceIterator [refl.VInt 1; refl.VInt 2]) []
    = Some ([Some (refl.VInt 1); Some (refl.VInt 2)], it)
    /\ refl.Next it = false.
Proof.
  destruct (X23_iterator_visits_all [refl.VInt 1; refl.VInt 2] 5)
    as (it & Hdrain & Hnext & _).
  - cbn. lia.
  - exists it. split; [exact Hdrain | exact Hnext].
Defined.

(** ** Appending through a pointer *)



(** X24: what [SliceOf] accepts. A value that is not a pointer is refused
    with the error that the slice has to be addressable. A pointer to a
    slice is accepted: the result stands for that slice, its element type
    is the type of the elements or, when these are pointers, the type they
    point to. The nil interface, and a pointer to an integer, a string, a
    boolean or an interface, make [SliceOf] panic. *)
Theorem X24_SliceOf_accepts_pointers_to_slices :
  (forall v, refl.kindOfType (refl.typeOf v) <> refl.Ptr ->
             refl.SliceOf (Some v)
             = refl.Returned
                 (None, Some (ErrorString "the slice has to be addressable")))
  /\ (forall t target,
        refl.SliceOf (Some (refl.VPtr (refl.TSlice t) target))
        = refl.Returned
            (Some {| refl.slice_ := Some (refl.VPtr (refl.TSlice t) target);
                     refl.sliceType := refl.TSlice t;
                     refl.sliceValue := target;
                     refl.elementType :=
                       match t with refl.TPtr elem => elem | _ => t end;
                     refl.elementPtr :=
                       match t with refl.TPtr _ => true | _ => false end |},
             None))
  /\ refl.SliceOf None = refl.Panicked
  /\ (forall t target,
        match t with
        | refl.TPtr _ | refl.TSlice _ => True
        | _ => refl.SliceOf (Some (refl.VPtr t target)) = refl.Panicked
        end).
Proof.
  repeat split.
  - intros v Hk. destruct v; cbn in *; congruence.
  - intros t target. destruct t; reflexivity.
  - intros t target. destruct t; auto.
Qed.


(** X26: [Append] adds at the end or leaves the slice alone. When [Append]
    returns, the types of the [Slice_] are what they were; with an error
    the slice is unchanged; without one the slice holds the elements it
    held, followed by one more. *)
Theorem X26_Append_adds_at_the_end (s s' : refl.Slice_) (elem : refl.any)
  (err : option error) :
  refl.Append s elem = refl.Returned (err, s') ->
  refl.sliceType s' = refl.sliceType s
  /\ refl.elementType s' = refl.elementType s
  /\ refl.elementPtr s' = refl.elementPtr s
  /\ match err with
     | Some _ => s' = s
     | None => exists x, refl.elements s' = refl.elements s ++ [x]
     end.
Proof.
  unfold refl.Append, refl.elements.
  destruct (refl.elementPtr s && negb (refl.Kind_eqb (refl.kind (refl.ValueOf elem)) refl.Ptr)).
  - intros [= <- <-]. auto.
  - destruct (refl.reflectAppend _ _) as [v | ] eqn:Happ; [ | discriminate].
    intros [= <- <-]. cbn. repeat split.
    unfold refl.reflectAppend in Happ.
    destruct (refl.sliceValue s) as [[n | st | b | d | t tg | t es] | ];
      try discriminate Happ.
    destruct (if negb (refl.elementPtr s)
                 && refl.Kind_eqb (refl.kind (refl.ValueOf elem)) refl.Ptr
              then refl.Elem (refl.ValueOf elem) else refl.ValueOf elem)
      as [x | ]; [ | discriminate Happ].
    destruct (refl.type_eqb (refl.typeOf x) t).
    + injection Happ as <-. eauto.
    + destruct t; try discriminate Happ. injection Happ as <-. eauto.
Qed.

Lemma X26_Append_adds_at_the_end_witness :
  exists s',
    refl.Append refl.sampleSlice (Some (refl.VInt 7)) = refl.Returned (None, s')
    /\ exists x, refl.elements s' = [refl.VInt 1] ++ [x].
Proof.
  eexists. split; [reflexivity | ].
  apply (X26_Append_adds_at_the_end refl.sampleSlice _ (Some (refl.VInt 7)) None).
  reflexivity.
Defined.

(** X27: a value and a pointer to it are appended alike. On a slice whose
    elements are not pointers, [Append] follows a pointer it is given, so
    appending a pointer to a value does what appending the value does. *)
Theorem X27_pointer_is_followed (s : refl.Slice_) (v : refl.value) :
  refl.elementPtr s = false ->
  refl.kindOfType (refl.typeOf v) <> refl.Ptr ->
  refl.Append s (Some (refl.VPtr (refl.typeOf v) (Some v)))
  = refl.Append s (Some v).
Proof.
  intros Hptr Hv. unfold refl.Append. rewrite Hptr. cbn [andb negb].
  cbn [refl.ValueOf refl.kind refl.typeOf refl.kindOfType refl.Kind_eqb
       refl.Elem].
  destruct (refl.kindOfType (refl.typeOf v)); try reflexivity.
  congruence.
Qed.

Lemma X27_pointer_is_followed_witness :
  refl.Append refl.sampleSlice (Some (refl.VPtr refl.TInt (Some (refl.VInt 7))))
  = refl.Append refl.sampleSlice (Some (refl.VInt 7)).
Proof.
  apply (X27_pointer_is_followed refl.sampleSlice (refl.VInt 7)).
  - reflexivity.
  - discriminate.
Defined.
